(** * clip_cleaner: the text normalisation pipeline [clean_text]

    A shallow embedding of [clean_text] from [clip_cleaner.py] together with
    the string, regular-expression and dictionary operations it calls, and
    the properties of the pipeline and of its summary counters. *)

From Stdlib Require Import NArith ZArith Lia.
From stdpp Require Import gmap strings list fin_maps pretty.

Local Open Scope N_scope.

(** ** Strings

    A Python [str] is a sequence of Unicode code points; [len] counts code
    points.  A character is its code point, a string a list of them. *)

Abbreviation char := N (only parsing).
Abbreviation str := (list N) (only parsing).

(** [Py_UNICODE_ISSPACE]: the characters [str.strip()] trims and [\s]
    matches in a [str] pattern. *)
Definition isspace (c : char) : bool :=
  ((9 <=? c) && (c <=? 13)) || ((28 <=? c) && (c <=? 32))
  || (c =? 133) || (c =? 160) || (c =? 5760)
  || ((8192 <=? c) && (c <=? 8202))
  || (c =? 8232) || (c =? 8233) || (c =? 8239) || (c =? 8287) || (c =? 12288).

(** An ASCII literal as a Python string. *)
Fixpoint lit (s : string) : str :=
  match s with
  | EmptyString => []
  | String a s' => Ascii.N_of_ascii a :: lit s'
  end.

Fixpoint take_while (f : char → bool) (s : str) : str :=
  match s with
  | [] => []
  | c :: s' => if f c then c :: take_while f s' else []
  end.

Fixpoint drop_while (f : char → bool) (s : str) : str :=
  match s with
  | [] => []
  | c :: s' => if f c then drop_while f s' else s
  end.

(** [s.startswith(prefix)] *)
Fixpoint startswith (prefix s : str) : bool :=
  match prefix, s with
  | [], _ => true
  | p :: prefix', c :: s' => (p =? c) && startswith prefix' s'
  | _ :: _, [] => false
  end.

(** [sub in s] *)
Fixpoint str_contains (sub s : str) : bool :=
  startswith sub s
  || match s with
     | [] => false
     | _ :: s' => str_contains sub s'
     end.

(** [s.count(sub)] counts non-overlapping occurrences from the left.  The
    scan walks the string once; [skip] is the number of characters still
    covered by the occurrence just found. *)
Fixpoint count_from (sub s : str) (skip : nat) : nat :=
  match s with
  | [] => 0
  | _ :: s' =>
      match skip with
      | S k => count_from sub s' k
      | O =>
          if startswith sub s
          then S (count_from sub s' (length sub - 1))
          else count_from sub s' 0
      end
  end%nat.

Definition str_count (s sub : str) : nat :=
  match sub with
  | [] => S (length s)
  | _ :: _ => count_from sub s 0
  end.

(** [s.replace(old, new)] *)
Fixpoint replace_from (old new s : str) (skip : nat) : str :=
  match s with
  | [] => []
  | c :: s' =>
      match skip with
      | S k => replace_from old new s' k
      | O =>
          if startswith old s
          then new ++ replace_from old new s' (length old - 1)
          else c :: replace_from old new s' 0
      end
  end.

Definition str_replace (s old new : str) : str :=
  match old with
  | [] => new ++ flat_map (λ c, c :: new) s
  | _ :: _ => replace_from old new s 0
  end.

(** [s.strip()] with no argument: the index of the first non-whitespace
    character from the left, then from the right. *)
Definition lstrip (s : str) : str := drop_while isspace s.
Definition rstrip (s : str) : str := reverse (drop_while isspace (reverse s)).
Definition strip (s : str) : str := rstrip (lstrip s).

(** ** Regular expressions

    The fragment of [re] the two compiled patterns use: a sequence of items,
    each a character set taken once or repeated greedily one or more times. *)

Inductive atom :=
  | Literal (c : char)
  | CategorySpace.

Inductive charset :=
  | In (negate : bool) (items : list atom).

Inductive item :=
  | One (cs : charset)
  | MaxRepeat1 (cs : charset).

Abbreviation pattern := (list item) (only parsing).

Definition atom_match (a : atom) (c : char) : bool :=
  match a with
  | Literal l => l =? c
  | CategorySpace => isspace c
  end.

Definition charset_match (cs : charset) (c : char) : bool :=
  match cs with
  | In negate items => xorb negate (existsb (λ a, atom_match a c) items)
  end.

(** Further repetitions of a greedy repeat, longest first, backing off one
    character at a time while the rest of the pattern [k] fails.  The result
    is the number of characters matched. *)
Fixpoint greedy (cs : charset) (k : str → option nat) (s : str) : option nat :=
  match s with
  | [] => k s
  | c :: s' =>
      if charset_match cs c
      then match greedy cs k s' with
           | Some n => Some (S n)
           | None => k s
           end
      else k s
  end.

(** A match anchored at the head of [s]: its length, if there is one. *)
Fixpoint match_here (p : pattern) (s : str) : option nat :=
  match p with
  | [] => Some O
  | One cs :: p' =>
      match s with
      | c :: s' => if charset_match cs c then S <$> match_here p' s' else None
      | [] => None
      end
  | MaxRepeat1 cs :: p' =>
      match s with
      | c :: s' =>
          if charset_match cs c then S <$> greedy cs (match_here p') s' else None
      | [] => None
      end
  end.

(** The search loop shared by [findall] and [sub]: leftmost matches, not
    overlapping, the characters between them kept one by one.  Both compiled
    patterns need at least one character, so a match of length zero does not
    occur (see [match_here_utm] and [match_here_multispace]); that branch
    keeps the character like a failed match. *)
Inductive piece :=
  | Unmatched (c : char)
  | Matched (m : str).

Fixpoint scan_from (p : pattern) (s : str) (skip : nat) : list piece :=
  match s with
  | [] => []
  | c :: s' =>
      match skip with
      | S k => scan_from p s' k
      | O =>
          match match_here p s with
          | Some (S n) => Matched (take (S n) s) :: scan_from p s' n
          | _ => Unmatched c :: scan_from p s' 0
          end
      end
  end.

Definition matched (x : piece) : option str :=
  match x with
  | Matched m => Some m
  | Unmatched _ => None
  end.

Definition render (repl : str) (x : piece) : str :=
  match x with
  | Matched _ => repl
  | Unmatched c => [c]
  end.

(** [p.findall(s)] *)
Definition re_findall (p : pattern) (s : str) : list str :=
  omap matched (scan_from p s 0).

(** [p.sub(repl, s)] for a replacement with no group reference. *)
Definition re_sub (p : pattern) (repl s : str) : str :=
  flat_map (render repl) (scan_from p s 0).

(** ** The module constants *)

(** [LANG_PUNCT_MAP], in insertion order, which is the order [items()]
    yields.  Sources: inverted question mark U+00BF, inverted exclamation
    mark U+00A1, guillemets U+00AB and U+00BB, em dash U+2014, en dash
    U+2013, ellipsis U+2026.  Targets: [?] 63, [!] 33, the double quote 34,
    [-] 45 and three full stops 46. *)
Definition LANG_PUNCT_MAP : list (str * str) :=
  [ ([191], [63]); ([161], [33]); ([171], [34]); ([187], [34]);
    ([8212], [45]); ([8211], [45]); ([8230], [46; 46; 46]) ].

(** The fancy double quotes U+201C, U+201D and single quotes U+2018, U+2019;
    they are replaced by the ASCII quotes 34 and 39. *)
Definition FANCY_DOUBLE : list str := [[8220]; [8221]].
Definition FANCY_SINGLE : list str := [[8216]; [8217]].

(** [\?utm_[^\s\n]+] *)
Definition UTM_PATTERN : list item :=
  [ One (In false [Literal 63]); One (In false [Literal 117]);
    One (In false [Literal 116]); One (In false [Literal 109]);
    One (In false [Literal 95]);
    MaxRepeat1 (In true [CategorySpace; Literal 10]) ].

(** [\s+] *)
Definition MULTISPACE_PATTERN : list item :=
  [ MaxRepeat1 (In false [CategorySpace]) ].

(** ** Objects, exceptions and the summary dictionary *)

Inductive exn :=
  | TypeError.

Inductive result (A : Type) :=
  | Ok (a : A)
  | Raise (e : exn).
Arguments Ok {A} a.
Arguments Raise {A} e.

#[global] Instance result_bind : MBind result := λ A B f m,
  match m with
  | Ok a => f a
  | Raise e => Raise e
  end.

(** What the [summary] parameter ([dict | None]) can hold. *)
Inductive pyobj :=
  | PyNone
  | PyDict (d : gmap string Z).

(** [summary[key] = value]; [None] does not support item assignment. *)
Definition setitem (summary : pyobj) (key : string) (value : Z) : result pyobj :=
  match summary with
  | PyNone => Raise TypeError
  | PyDict d => Ok (PyDict (<[key := value]> d))
  end.

(** ** clean_text *)

(** The two fancy-quote loops. *)
Definition replace_quotes (text : str) : str :=
  let text := foldl (λ text ch, str_replace text ch [34]) text FANCY_DOUBLE in
  foldl (λ text ch, str_replace text ch [39]) text FANCY_SINGLE.

(** The body of the language-mode loop, on the pair [(text, replaced)]. *)
Definition lang_punct_step (st : str * nat) (entry : str * str) : str * nat :=
  let '(text, replaced) := st in
  let '(src, dst) := entry in
  if str_contains src text
  then
    let count := str_count text src in
    (str_replace text src dst, (replaced + count)%nat)
  else (text, replaced).

Definition replace_lang_punct (text : str) : str * nat :=
  foldl lang_punct_step (text, O) LANG_PUNCT_MAP.

(** Line endings, then every run of whitespace to one space, trimmed. *)
Definition normalize_newlines (text : str) : str :=
  str_replace (str_replace text [13; 10] [10]) [13] [10].

Definition collapse_spaces (text : str) : str :=
  strip (re_sub MULTISPACE_PATTERN [32] text).

(** The returned pair is the returned string and the summary object as the
    call leaves it (the caller's dictionary, updated in place, or the local
    one made when none was passed). *)
Definition clean_text (text : str) (language_mode : bool) (summary : pyobj)
  : result (str * pyobj) :=
  let summary := match summary with PyNone => PyDict ∅ | _ => summary end in
  let double_count := sum_list (map (str_count text) FANCY_DOUBLE) in
  let single_count := sum_list (map (str_count text) FANCY_SINGLE) in
  summary ← setitem summary "fancy_double_before" (Z.of_nat double_count);
  summary ← setitem summary "fancy_single_before" (Z.of_nat single_count);
  let text := replace_quotes text in
  st ← (if language_mode
        then
          let '(text, replaced) := replace_lang_punct text in
          summary ← setitem summary "lang_punct_replaced" (Z.of_nat replaced);
          Ok (text, summary)
        else Ok (text, summary));
  let '(text, summary) := st in
  let text := normalize_newlines text in
  let text := collapse_spaces text in
  let utm_matches := re_findall UTM_PATTERN text in
  summary ← setitem summary "utm_removed_count" (Z.of_nat (length utm_matches));
  let text := re_sub UTM_PATTERN [] text in
  let text := collapse_spaces text in
  summary ← setitem summary "final_length" (Z.of_nat (length text));
  Ok (text, summary).

(** [clean(text, languageMode)]: the call as every caller makes it, with a
    fresh dictionary ([summary = {}]). *)
Definition clean (text : str) (language_mode : bool) : result (str * pyobj) :=
  clean_text text language_mode (PyDict ∅).

(** The text handed to the UTM step: after quotes, optional punctuation,
    line endings and the first whitespace collapse. *)
Definition text_before_utm (text : str) (language_mode : bool) : str :=
  let text := replace_quotes text in
  let text := if language_mode then (replace_lang_punct text).1 else text in
  collapse_spaces (normalize_newlines text).


(** ** Reference functions the pipeline is compared with *)

(** Number of characters of [s] that satisfy [f]. *)
Fixpoint count_if (f : char → bool) (s : str) : nat :=
  match s with
  | [] => O
  | c :: s' => if f c then S (count_if f s') else count_if f s'
  end.

(** What the quote loops do to one character. *)
Definition unfancy (c : char) : char :=
  if (c =? 8220) || (c =? 8221) then 34
  else if (c =? 8216) || (c =? 8217) then 39
  else c.

(** [c] is a source of the table; what the table turns one character into. *)
Definition is_key (table : list (str * str)) (c : char) : bool :=
  existsb (λ e : str * str, bool_decide (e.1 = [c])) table.

Fixpoint table_subst (table : list (str * str)) (c : char) : str :=
  match table with
  | [] => [c]
  | (src, dst) :: table' =>
      if bool_decide (src = [c]) then dst else table_subst table' c
  end.

(** A table whose sources are distinct single characters, none of them
    produced by an earlier entry: the loop then acts on each character of the
    text independently. *)
Fixpoint table_ok (table : list (str * str)) : bool :=
  match table with
  | [] => true
  | (src, dst) :: table' =>
      match src with
      | [k] =>
          negb (is_key table' k) && forallb (λ d, negb (is_key table' d)) dst
          && table_ok table'
      | _ => false
      end
  end.

(** The search loop seen as a two-state machine, for a pattern whose match
    at a position where [start] holds is the longest run of [P] characters
    from there: [inside] tells whether the scan is within a match. *)
Fixpoint run (P : char → bool) (start : str → bool) (inside : bool) (s : str)
  : list piece :=
  match s with
  | [] => []
  | c :: s' =>
      if inside && P c then run P start true s'
      else if start s then Matched (take_while P s) :: run P start true s'
      else Unmatched c :: run P start false s'
  end.

Definition space_starts (s : str) : bool :=
  match s with
  | c :: _ => isspace c
  | [] => false
  end.

(** Every run of whitespace becomes one space: the first whitespace
    character of a run is turned into a space, the others are dropped. *)
Fixpoint collapse (in_run : bool) (s : str) : str :=
  match s with
  | [] => []
  | c :: s' =>
      if isspace c
      then if in_run then collapse true s' else 32 :: collapse true s'
      else c :: collapse false s'
  end.

(** ** UTM fragments, as the specification words them

    A fragment starts where the text reads [?utm_] followed by a
    non-whitespace character, and runs up to the next whitespace character
    or the end of the text. *)
Definition nonspace (c : char) : bool := negb (isspace c).

Definition utm_starts (s : str) : bool :=
  startswith (lit "?utm_") s
  && match drop 5 s with
     | c :: _ => negb (isspace c)
     | [] => false
     end.

(** The text with every fragment deleted; [inside] tells whether the
    character read lies within a fragment. *)
Fixpoint utm_removed (inside : bool) (s : str) : str :=
  match s with
  | [] => []
  | c :: s' =>
      if isspace c then c :: utm_removed false s'
      else if inside then utm_removed true s'
      else if utm_starts s then utm_removed true s'
      else c :: utm_removed false s'
  end.

(** The number of fragments. *)
Fixpoint utm_count (inside : bool) (s : str) : nat :=
  match s with
  | [] => O
  | c :: s' =>
      if isspace c then utm_count false s'
      else if inside then utm_count true s'
      else if utm_starts s then S (utm_count true s')
      else utm_count false s'
  end.

(** No fragment starts anywhere in [s]. *)
Fixpoint utm_free (s : str) : bool :=
  match s with
  | [] => true
  | _ :: s' => negb (utm_starts s) && utm_free s'
  end.

(** ** The shape of a cleaned text *)

(** The only whitespace character is the ASCII space. *)
Definition tidy_char (c : char) : Prop := isspace c = true → c = 32.

(** No whitespace character follows another; with [after_space] set, the
    text does not start with one either. *)
Fixpoint single_spaced (after_space : bool) (s : str) : bool :=
  match s with
  | [] => true
  | c :: s' =>
      if isspace c then negb after_space && single_spaced true s'
      else single_spaced false s'
  end.

Definition normal (s : str) : Prop :=
  Forall tidy_char s
  ∧ single_spaced true s = true
  ∧ ∀ c, last s = Some c → isspace c = false.

(** ** The result of [clean_text] in closed form *)

Definition final_text (text : str) (language_mode : bool) : str :=
  collapse_spaces (re_sub UTM_PATTERN [] (text_before_utm text language_mode)).

(** The dictionary the summary parameter denotes on entry. *)
Definition dict_of (summary : pyobj) : gmap string Z :=
  match summary with
  | PyNone => ∅
  | PyDict d => d
  end.

Definition final_summary (text : str) (language_mode : bool) (d : gmap string Z)
  : gmap string Z :=
  let d :=
    <["fancy_double_before" :=
        Z.of_nat (sum_list (map (str_count text) FANCY_DOUBLE))]> d in
  let d :=
    <["fancy_single_before" :=
        Z.of_nat (sum_list (map (str_count text) FANCY_SINGLE))]> d in
  let d :=
    if language_mode
    then <["lang_punct_replaced" :=
             Z.of_nat (replace_lang_punct (replace_quotes text)).2]> d
    else d in
  let d :=
    <["utm_removed_count" :=
        Z.of_nat (length (re_findall UTM_PATTERN
                            (text_before_utm text language_mode)))]> d in
  <["final_length" := Z.of_nat (length (final_text text language_mode))]> d.

(** ** The input with every character replaced on its own

    What the quote loops and, in language mode, the punctuation loop make of
    the input, before any whitespace is touched. *)
Definition substituted (text : str) (language_mode : bool) : str :=
  if language_mode
  then flat_map (table_subst LANG_PUNCT_MAP) (map unfancy text)
  else map unfancy text.

(** The non-whitespace characters of a text, in order. *)
Definition visible (s : str) : str := filter (λ c, isspace c = false) s.

(** The keys [clean_text] assigns. *)
Definition summary_keys_written : list string :=
  [ "fancy_double_before"; "fancy_single_before"; "lang_punct_replaced";
    "utm_removed_count"; "final_length" ].

(** * The command-line layer

    [printc], [show_summary_info], [process_clipboard] and [process_stdin],
    as transformers of the state they read and write. *)

(** The colour constants the module imports from [colorama] ([Fore.RED],
    ..., [Style.RESET_ALL]), or the empty strings of the fallback classes. *)
Record colors := {
  Fore_RED : str;
  Fore_GREEN : str;
  Fore_YELLOW : str;
  Fore_CYAN : str;
  Style_RESET_ALL : str;
}.

(** The two module flags, the clipboard as [pyperclip.paste] reads it and
    [pyperclip.copy] sets it, the text still to be read from standard input
    (decoded, line ends as ["\n"]), and what [print] was called with, one
    entry per call. *)
Record world := {
  COLOR_AVAILABLE : bool;
  PYPERCLIP_AVAILABLE : bool;
  clipboard : str;
  stdin : str;
  stdout : list str;
}.

Definition print (msg : str) (w : world) : world :=
  {| COLOR_AVAILABLE := COLOR_AVAILABLE w;
     PYPERCLIP_AVAILABLE := PYPERCLIP_AVAILABLE w;
     clipboard := clipboard w;
     stdin := stdin w;
     stdout := stdout w ++ [msg] |}.

(** [pyperclip.copy(text)] *)
Definition pyperclip_copy (text : str) (w : world) : world :=
  {| COLOR_AVAILABLE := COLOR_AVAILABLE w;
     PYPERCLIP_AVAILABLE := PYPERCLIP_AVAILABLE w;
     clipboard := text;
     stdin := stdin w;
     stdout := stdout w |}.

Definition set_stdin (buf : str) (w : world) : world :=
  {| COLOR_AVAILABLE := COLOR_AVAILABLE w;
     PYPERCLIP_AVAILABLE := PYPERCLIP_AVAILABLE w;
     clipboard := clipboard w;
     stdin := buf;
     stdout := stdout w |}.

(** Truth value of a string: it is not empty. *)
Definition truthy (s : str) : bool :=
  match s with
  | [] => false
  | _ :: _ => true
  end.

(** [str(n)] on an integer, as an f-string formats it. *)
Definition str_of_int (n : Z) : str := lit (pretty n).

Definition printc (cs : colors) (msg color : str) (w : world) : world :=
  if COLOR_AVAILABLE w && truthy color
  then print (color ++ msg ++ Style_RESET_ALL cs) w
  else print msg w.

(** [summary.get(key, 0)] *)
Definition dict_get (summary : gmap string Z) (key : string) (dflt : Z) : Z :=
  default dflt (summary !! key).

Definition show_summary_info (cs : colors) (summary : gmap string Z)
    (raw cleaned : str) (w : world) : world :=
  let w := printc cs ([10] ++ lit "--- Summary ---") (Fore_CYAN cs) w in
  let dd := dict_get summary "fancy_double_before" 0 in
  let ds := dict_get summary "fancy_single_before" 0 in
  let utm := dict_get summary "utm_removed_count" 0 in
  let lang := dict_get summary "lang_punct_replaced" 0 in
  let w := printc cs (lit "Fancy double quotes replaced: " ++ str_of_int dd)
                  (Fore_YELLOW cs) w in
  let w := printc cs (lit "Fancy single quotes replaced: " ++ str_of_int ds)
                  (Fore_YELLOW cs) w in
  let w := printc cs (lit "UTM tracking parts removed: " ++ str_of_int utm)
                  (Fore_YELLOW cs) w in
  let w :=
    if bool_decide (is_Some (summary !! "lang_punct_replaced"))
    then printc cs (lit "Language punctuation replacements: " ++ str_of_int lang)
                (Fore_YELLOW cs) w
    else w in
  let w := printc cs (lit "Original length: "
                      ++ str_of_int (Z.of_nat (length raw)))
                  (Fore_CYAN cs) w in
  printc cs (lit "Cleaned length: " ++ str_of_int (Z.of_nat (length cleaned)))
         (Fore_CYAN cs) w.

(** ** Clipboard mode

    [pyperclip] is not part of the source.  Its two functions are taken as
    given: [paste] returns the text of the clipboard or raises, [copy] sets
    the clipboard or raises, as they do when the module imports but finds no
    clipboard mechanism. *)
Inductive py_exception :=
  | CleanTextError (e : exn)
  | PyperclipException.

Inductive outcome (A : Type) :=
  | Returned (a : A)
  | Raised (e : py_exception).
Arguments Returned {A} a.
Arguments Raised {A} e.

#[global] Instance outcome_bind : MBind outcome := λ A B f m,
  match m with
  | Returned a => f a
  | Raised e => Raised e
  end.

Definition of_result {A} (r : result A) : outcome A :=
  match r with
  | Ok a => Returned a
  | Raise e => Raised (CleanTextError e)
  end.

Record pyperclip_module := {
  paste : world → outcome str;
  copy : str → world → outcome world;
}.

(** A [pyperclip] with a working mechanism: [paste] returns what the
    clipboard holds and [copy] replaces it. *)
Definition working_pyperclip : pyperclip_module :=
  {| paste := λ w, Returned (clipboard w);
     copy := λ text w, Returned (pyperclip_copy text w) |}.

(** A [pyperclip] that imports but has no mechanism: both calls raise. *)
Definition pyperclip_without_mechanism : pyperclip_module :=
  {| paste := λ _, Raised PyperclipException;
     copy := λ _ _, Raised PyperclipException |}.

(** The caller makes [summary = {}], passes it, and reads it after the call:
    [dict_of] is that dictionary as the call left it.  The calls of [paste]
    and [copy] are not guarded: what they raise leaves the function. *)
Definition process_clipboard (pyperclip : pyperclip_module) (cs : colors)
    (language_mode show_summary : bool) (w : world) : outcome world :=
  if negb (PYPERCLIP_AVAILABLE w)
  then Returned
         (printc cs
            (lit "pyperclip not installed or unavailable. Clipboard mode won't work.")
            (Fore_RED cs) w)
  else
    raw ← paste pyperclip w;
    if negb (truthy raw)
    then Returned (printc cs (lit "Clipboard is empty.") (Fore_YELLOW cs) w)
    else
      r ← of_result (clean_text raw language_mode (PyDict ∅));
      let '(cleaned, summary) := r in
      w ← copy pyperclip cleaned w;
      let w := printc cs (lit "Clipboard cleaned and copied back to clipboard.")
                      (Fore_GREEN cs) w in
      if show_summary
      then Returned (show_summary_info cs (dict_of summary) raw cleaned w)
      else Returned w.

(** [sys.stdin.readline()]: the line up to and including its ["\n"], or what
    is left before the end of input, and the text that remains. *)
Fixpoint readline (buf : str) : str * str :=
  match buf with
  | [] => ([], [])
  | c :: buf' =>
      if c =? 10 then ([c], buf')
      else let '(line, rest) := readline buf' in (c :: line, rest)
  end.

(** [s.rstrip(chars)] *)
Definition rstrip_chars (s chars : str) : str :=
  reverse (drop_while (λ c, bool_decide (c ∈ chars)) (reverse s)).

(** [sep.join(parts)] *)
Definition join (sep : str) (parts : list str) : str :=
  match parts with
  | [] => []
  | p :: parts' => p ++ flat_map (λ q, sep ++ q) parts'
  end.

(** The [while True] loop of [process_stdin]: the lines collected and the
    input left.  Each turn that does not break reads at least one character,
    so [S (length buf)] turns are enough (see [read_loop_fuel]). *)
Fixpoint read_loop (fuel : nat) (buf : str) (lines : list str)
  : list str * str :=
  match fuel with
  | O => (lines, buf)
  | S fuel' =>
      let '(line, buf') := readline buf in
      if negb (truthy line) then (lines, buf')
      else if bool_decide (strip line = []) then (lines, buf')
      else read_loop fuel' buf' (lines ++ [rstrip_chars line [10]])
  end.

(** A [KeyboardInterrupt] during the loop is not part of this model. *)
Definition process_stdin (cs : colors) (language_mode show_summary : bool)
    (w : world) : result world :=
  let w :=
    printc cs
      (lit "Paste your text. Press Enter twice on an empty line (or Ctrl+D/Ctrl+Z) to end:")
      (Fore_CYAN cs) w in
  let '(lines, rest) := read_loop (S (length (stdin w))) (stdin w) [] in
  let w := set_stdin rest w in
  let raw := join [10] lines in
  if negb (truthy raw)
  then Ok (printc cs (lit "No input received.") (Fore_YELLOW cs) w)
  else
    r ← clean_text raw language_mode (PyDict ∅);
    let '(cleaned, summary) := r in
    let w := printc cs ([10] ++ lit "--- Cleaned Output ---" ++ [10])
                    (Fore_CYAN cs) w in
    let w := print cleaned w in
    if show_summary
    then Ok (show_summary_info cs (dict_of summary) raw cleaned w)
    else Ok w.

(** The lines successive [readline] calls return until the input ends. *)
Fixpoint lines_of (buf : str) : list str :=
  match buf with
  | [] => []
  | c :: buf' =>
      if c =? 10 then [c] :: lines_of buf'
      else match lines_of buf' with
           | [] => [[c]]
           | line :: rest => (c :: line) :: rest
           end
  end.

(** The loop over those lines: collect until a blank line or the end. *)
Fixpoint take_lines (pending : list str) (lines : list str) : list str :=
  match pending with
  | [] => lines
  | line :: pending' =>
      if bool_decide (strip line = []) then lines
      else take_lines pending' (lines ++ [rstrip_chars line [10]])
  end.

(** ** What a run prints, in closed form *)

(** [w] after printing [msgs], one [print] call each. *)
Definition emit (msgs : list str) (w : world) : world :=
  {| COLOR_AVAILABLE := COLOR_AVAILABLE w;
     PYPERCLIP_AVAILABLE := PYPERCLIP_AVAILABLE w;
     clipboard := clipboard w;
     stdin := stdin w;
     stdout := stdout w ++ msgs |}.

(** The string [printc] hands to [print]. *)
Definition printed (cs : colors) (color_on : bool) (msg color : str) : str :=
  if color_on && truthy color then color ++ msg ++ Style_RESET_ALL cs else msg.

(** The lines of [show_summary_info]. *)
Definition summary_report (cs : colors) (color_on : bool)
    (summary : gmap string Z) (raw cleaned : str) : list str :=
  [ printed cs color_on ([10] ++ lit "--- Summary ---") (Fore_CYAN cs);
    printed cs color_on
      (lit "Fancy double quotes replaced: "
       ++ str_of_int (dict_get summary "fancy_double_before" 0))
      (Fore_YELLOW cs);
    printed cs color_on
      (lit "Fancy single quotes replaced: "
       ++ str_of_int (dict_get summary "fancy_single_before" 0))
      (Fore_YELLOW cs);
    printed cs color_on
      (lit "UTM tracking parts removed: "
       ++ str_of_int (dict_get summary "utm_removed_count" 0))
      (Fore_YELLOW cs) ]
  ++ (if bool_decide (is_Some (summary !! "lang_punct_replaced"))
      then [ printed cs color_on
               (lit "Language punctuation replacements: "
                ++ str_of_int (dict_get summary "lang_punct_replaced" 0))
               (Fore_YELLOW cs) ]
      else [])
  ++ [ printed cs color_on
         (lit "Original length: " ++ str_of_int (Z.of_nat (length raw)))
         (Fore_CYAN cs);
       printed cs color_on
         (lit "Cleaned length: " ++ str_of_int (Z.of_nat (length cleaned)))
         (Fore_CYAN cs) ].

(** The text [process_stdin] hands to [clean_text]. *)
Definition stdin_raw (buf : str) : str :=
  join [10] (take_lines (lines_of buf) []).

(** The fallback classes [Fore] and [Style] the module defines when
    [colorama] cannot be imported: every constant is the empty string. *)
Definition fallback_colors : colors :=
  {| Fore_RED := []; Fore_GREEN := []; Fore_YELLOW := []; Fore_CYAN := [];
     Style_RESET_ALL := [] |}.

(** The state in which a mode starts: nothing printed yet. *)
Definition initial_world (color pyperclip : bool) (clip input : str) : world :=
  {| COLOR_AVAILABLE := color; PYPERCLIP_AVAILABLE := pyperclip;
     clipboard := clip; stdin := input; stdout := [] |}.

(** * The module namespace

    [clean_text] reads five module-level names each time it runs, and other
    code of the module assigns a module-level name ([main] turns
    [COLOR_AVAILABLE] off).  Here the namespace is explicit: a function takes
    the namespace it runs in and returns the namespace it leaves. *)

Record globals := {
  g_PYPERCLIP_AVAILABLE : bool;
  g_COLOR_AVAILABLE : bool;
  g_LANG_PUNCT_MAP : list (str * str);
  g_FANCY_DOUBLE : list str;
  g_FANCY_SINGLE : list str;
  g_UTM_PATTERN : list item;
  g_MULTISPACE_PATTERN : list item;
}.

(** The namespace once the module is imported; the two flags record whether
    [pyperclip] and [colorama] could be imported. *)
Definition imported (pyperclip colorama : bool) : globals :=
  {| g_PYPERCLIP_AVAILABLE := pyperclip;
     g_COLOR_AVAILABLE := colorama;
     g_LANG_PUNCT_MAP := LANG_PUNCT_MAP;
     g_FANCY_DOUBLE := FANCY_DOUBLE;
     g_FANCY_SINGLE := FANCY_SINGLE;
     g_UTM_PATTERN := UTM_PATTERN;
     g_MULTISPACE_PATTERN := MULTISPACE_PATTERN |}.

(** A computation in a namespace: its result or exception, and the
    namespace afterwards. *)
Definition stateful (A : Type) : Type := globals → result A * globals.

#[global] Instance stateful_ret : MRet stateful := λ A a g, (Ok a, g).
#[global] Instance stateful_bind : MBind stateful := λ A B f m g,
  match m g with
  | (Ok a, g') => f a g'
  | (Raise e, g') => (Raise e, g')
  end.

(** Reading a module-level name; assigning one; an operation that touches
    no module-level name. *)
Definition load {A} (name : globals → A) : stateful A := λ g, (Ok (name g), g).
Definition store (update : globals → globals) : stateful () :=
  λ g, (Ok (), update g).
Definition lift {A} (r : result A) : stateful A := λ g, (r, g).

(** [clean_text] again, with every use of a module-level name a [load]. *)
Definition clean_text_in (text : str) (language_mode : bool) (summary : pyobj)
  : stateful (str * pyobj) :=
  let summary := match summary with PyNone => PyDict ∅ | _ => summary end in
  fancy_double ← load g_FANCY_DOUBLE;
  let double_count := sum_list (map (str_count text) fancy_double) in
  fancy_single ← load g_FANCY_SINGLE;
  let single_count := sum_list (map (str_count text) fancy_single) in
  summary ← lift (setitem summary "fancy_double_before" (Z.of_nat double_count));
  summary ← lift (setitem summary "fancy_single_before" (Z.of_nat single_count));
  fancy_double ← load g_FANCY_DOUBLE;
  let text := foldl (λ text ch, str_replace text ch [34]) text fancy_double in
  fancy_single ← load g_FANCY_SINGLE;
  let text := foldl (λ text ch, str_replace text ch [39]) text fancy_single in
  st ← (if language_mode
        then
          table ← load g_LANG_PUNCT_MAP;
          let '(text, replaced) := foldl lang_punct_step (text, O) table in
          summary ← lift (setitem summary "lang_punct_replaced"
                            (Z.of_nat replaced));
          mret (text, summary)
        else mret (text, summary));
  let '(text, summary) := st in
  let text := normalize_newlines text in
  multispace ← load g_MULTISPACE_PATTERN;
  let text := strip (re_sub multispace [32] text) in
  utm ← load g_UTM_PATTERN;
  let utm_matches := re_findall utm text in
  summary ← lift (setitem summary "utm_removed_count"
                    (Z.of_nat (length utm_matches)));
  utm ← load g_UTM_PATTERN;
  let text := re_sub utm [] text in
  multispace ← load g_MULTISPACE_PATTERN;
  let text := strip (re_sub multispace [32] text) in
  summary ← lift (setitem summary "final_length" (Z.of_nat (length text)));
  mret (text, summary).

(** [global COLOR_AVAILABLE; if args.no_color: COLOR_AVAILABLE = False], the
    one assignment to a module-level name after import. *)
Definition main_no_color (no_color : bool) : stateful () :=
  if no_color
  then store (λ g,
         {| g_PYPERCLIP_AVAILABLE := g_PYPERCLIP_AVAILABLE g;
            g_COLOR_AVAILABLE := false;
            g_LANG_PUNCT_MAP := g_LANG_PUNCT_MAP g;
            g_FANCY_DOUBLE := g_FANCY_DOUBLE g;
            g_FANCY_SINGLE := g_FANCY_SINGLE g;
            g_UTM_PATTERN := g_UTM_PATTERN g;
            g_MULTISPACE_PATTERN := g_MULTISPACE_PATTERN g |})
  else mret ().

(** What the module's code can do to the namespace between two calls: call
    [clean_text], with any arguments, or run the assignment of [main]. *)
Inductive action :=
  | CallCleanText (text : str) (language_mode : bool) (summary : pyobj)
  | MainNoColor (no_color : bool).

Definition run_action (g : globals) (a : action) : globals :=
  match a with
  | CallCleanText text language_mode summary =>
      (clean_text_in text language_mode summary g).2
  | MainNoColor no_color => (main_no_color no_color g).2
  end.

Definition run_actions (history : list action) (g : globals) : globals :=
  foldl run_action g history.

(** The five names [clean_text] reads hold what the module gave them. *)
Definition constants_intact (g : globals) : Prop :=
  g_LANG_PUNCT_MAP g = LANG_PUNCT_MAP
  ∧ g_FANCY_DOUBLE g = FANCY_DOUBLE
  ∧ g_FANCY_SINGLE g = FANCY_SINGLE
  ∧ g_UTM_PATTERN g = UTM_PATTERN
  ∧ g_MULTISPACE_PATTERN g = MULTISPACE_PATTERN.

(** * Proofs *)

(** ** String primitives on one-character needles *)

Lemma str_count_char (s : list N) (a : N) :
  str_count s [a] = count_occ N.eq_dec s a.
Proof.
  unfold str_count.
  induction s as [|c s IH]; simpl; [done|].
  destruct (N.eqb_spec a c) as [->|Hne]; simpl.
  - destruct (N.eq_dec c c); [|done]. by rewrite IH.
  - destruct (N.eq_dec c a); [congruence|done].
Qed.

Lemma str_replace_char (s : list N) (a : N) (new : list N) :
  str_replace s [a] new = flat_map (λ c, if c =? a then new else [c]) s.
Proof.
  unfold str_replace.
  induction s as [|c s IH]; simpl; [done|].
  rewrite (N.eqb_sym c a).
  destruct (a =? c); simpl; by rewrite IH.
Qed.

Lemma str_contains_char (s : list N) (a : N) :
  str_contains [a] s = false → a ∉ s.
Proof.
  induction s as [|c s IH]; simpl; [intros _; apply not_elem_of_nil|].
  destruct (N.eqb_spec a c) as [->|Hne]; simpl; [done|].
  intros H. apply not_elem_of_cons. split; [done|by apply IH].
Qed.

Lemma flat_map_absent (s : list N) (a : N) (new : list N) :
  a ∉ s → flat_map (λ c, if c =? a then new else [c]) s = s.
Proof.
  induction s as [|c s IH]; simpl; [done|].
  intros [Hne Hs]%not_elem_of_cons.
  destruct (N.eqb_spec c a); [congruence|]. simpl. by rewrite IH.
Qed.

Lemma count_occ_absent (s : list N) (a : N) :
  a ∉ s → count_occ N.eq_dec s a = O.
Proof.
  intros H. apply count_occ_not_In. by rewrite <- list_elem_of_In.
Qed.

Lemma count_if_le (f : N → bool) (s : list N) : (count_if f s ≤ length s)%nat.
Proof. induction s as [|c s IH]; simpl; [lia|]. destruct (f c); lia. Qed.

(** ** The fancy-quote loops *)

Lemma replace_quotes_map (s : list N) : replace_quotes s = map unfancy s.
Proof.
  unfold replace_quotes, FANCY_DOUBLE, FANCY_SINGLE. cbn [foldl].
  rewrite !str_replace_char.
  induction s as [|c s IH]; simpl; [done|].
  rewrite !flat_map_app, IH. unfold unfancy.
  destruct (N.eqb_spec c 8220) as [->|?]; [done|].
  destruct (N.eqb_spec c 8221) as [->|?]; [done|].
  destruct (N.eqb_spec c 8216) as [->|?]; [done|].
  destruct (N.eqb_spec c 8217) as [->|?]; [done|].
  simpl.
  destruct (N.eqb_spec c 8220); [done|]. simpl.
  destruct (N.eqb_spec c 8221); [done|]. simpl.
  destruct (N.eqb_spec c 8216); [done|]. simpl.
  destruct (N.eqb_spec c 8217); [done|]. done.
Qed.

Lemma fancy_double_count (s : list N) :
  sum_list (map (str_count s) FANCY_DOUBLE)
  = (count_occ N.eq_dec s 8220%N + count_occ N.eq_dec s 8221%N)%nat.
Proof. unfold FANCY_DOUBLE. cbn [map]. rewrite !str_count_char. simpl. lia. Qed.

Lemma fancy_single_count (s : list N) :
  sum_list (map (str_count s) FANCY_SINGLE)
  = (count_occ N.eq_dec s 8216%N + count_occ N.eq_dec s 8217%N)%nat.
Proof. unfold FANCY_SINGLE. cbn [map]. rewrite !str_count_char. simpl. lia. Qed.

Lemma count_two_le (s : list N) (a b : N) :
  a ≠ b → (count_occ N.eq_dec s a + count_occ N.eq_dec s b ≤ length s)%nat.
Proof.
  intros Hab. induction s as [|c s IH]; simpl; [lia|].
  destruct (N.eq_dec c a), (N.eq_dec c b); lia.
Qed.

(** ** The language-punctuation loop *)

Lemma lang_punct_step_char (t : list N) (r : nat) (k : N) (dst : list N) :
  lang_punct_step (t, r) ([k], dst)
  = (flat_map (λ c, if c =? k then dst else [c]) t,
     (r + count_occ N.eq_dec t k)%nat).
Proof.
  unfold lang_punct_step.
  destruct (str_contains [k] t) eqn:H.
  - by rewrite str_replace_char, str_count_char.
  - apply str_contains_char in H.
    rewrite flat_map_absent, count_occ_absent by done. f_equal. lia.
Qed.

Lemma key_test (k c : N) : bool_decide ([k] = [c]) = (c =? k).
Proof.
  destruct (N.eqb_spec c k) as [->|Hne].
  - by apply bool_decide_eq_true.
  - apply bool_decide_eq_false. congruence.
Qed.

Lemma table_subst_nonkey (table : list (list N * list N)) (c : N) :
  is_key table c = false → table_subst table c = [c].
Proof.
  induction table as [|[src dst] table IH]; simpl; [done|].
  intros [H1 H2]%orb_false_iff. rewrite H1. by apply IH.
Qed.

Lemma flat_map_table_subst_nonkeys (table : list (list N * list N)) (l : list N) :
  forallb (λ d, negb (is_key table d)) l = true →
  flat_map (table_subst table) l = l.
Proof.
  induction l as [|d l IH]; simpl; [done|].
  intros [H1 H2]%andb_true_iff. apply negb_true_iff in H1.
  by rewrite table_subst_nonkey, IH.
Qed.

Lemma count_if_nonkeys (table : list (list N * list N)) (l : list N) :
  forallb (λ d, negb (is_key table d)) l = true →
  count_if (is_key table) l = O.
Proof.
  induction l as [|d l IH]; simpl; [done|].
  intros [H1 H2]%andb_true_iff. apply negb_true_iff in H1.
  by rewrite H1, IH.
Qed.

Lemma count_if_app (f : N → bool) (l1 l2 : list N) :
  count_if f (l1 ++ l2) = (count_if f l1 + count_if f l2)%nat.
Proof.
  induction l1 as [|c l1 IH]; simpl; [done|]. destruct (f c); lia.
Qed.

(** On a well-formed table the loop substitutes each character on its own,
    and counts the characters that are sources of the table. *)
Lemma lang_loop_spec (table : list (list N * list N)) :
  table_ok table = true →
  ∀ (t : list N) (r : nat),
    foldl lang_punct_step (t, r) table
    = (flat_map (table_subst table) t, (r + count_if (is_key table) t)%nat).
Proof.
  induction table as [|[src dst] table IH]; intros Hok t r.
  - simpl. f_equal.
    + induction t as [|c t IHt]; simpl; [done|]. by rewrite <- IHt.
    + induction t as [|c t IHt]; simpl; lia.
  - simpl in Hok. destruct src as [|k [|? ?]]; try done.
    apply andb_true_iff in Hok as [[Hk Hdst]%andb_true_iff Hok].
    apply negb_true_iff in Hk.
    cbn [foldl]. rewrite lang_punct_step_char, IH by done. f_equal.
    + induction t as [|c t IHt]; simpl; [done|].
      rewrite flat_map_app, IHt, key_test. f_equal.
      destruct (N.eqb_spec c k) as [->|Hne].
      * by apply flat_map_table_subst_nonkeys.
      * simpl. by rewrite app_nil_r.
    + rewrite <- Nat.add_assoc. f_equal.
      induction t as [|c t IHt]; simpl; [done|].
      rewrite count_if_app, key_test.
      destruct (N.eq_dec c k) as [->|Hne].
      * rewrite N.eqb_refl. simpl. rewrite count_if_nonkeys by done. lia.
      * destruct (N.eqb_spec c k); [done|]. simpl.
        destruct (is_key table c); lia.
Qed.

Lemma LANG_PUNCT_MAP_ok : table_ok LANG_PUNCT_MAP = true.
Proof. vm_compute. reflexivity. Qed.

Lemma replace_lang_punct_spec (t : list N) :
  replace_lang_punct t
  = (flat_map (table_subst LANG_PUNCT_MAP) t, count_if (is_key LANG_PUNCT_MAP) t).
Proof.
  unfold replace_lang_punct. by rewrite (lang_loop_spec _ LANG_PUNCT_MAP_ok).
Qed.

(** Every table entry is at most three characters long. *)
Lemma table_subst_length (c : N) :
  (length (table_subst LANG_PUNCT_MAP c) ≤ 3)%nat.
Proof.
  unfold LANG_PUNCT_MAP. simpl. rewrite !key_test.
  repeat (destruct (_ =? _); [simpl; lia|]). simpl. lia.
Qed.

Lemma flat_map_length_le (f : N → list N) (n : nat) (t : list N) :
  (∀ c, length (f c) ≤ n)%nat → (length (flat_map f t) ≤ n * length t)%nat.
Proof.
  intros H. induction t as [|c t IH]; simpl; [lia|].
  rewrite length_app. specialize (H c). lia.
Qed.

Lemma is_key_unfancy (c : N) :
  is_key LANG_PUNCT_MAP (unfancy c) = is_key LANG_PUNCT_MAP c.
Proof.
  unfold unfancy.
  destruct (N.eqb_spec c 8220) as [->|?]; [done|].
  destruct (N.eqb_spec c 8221) as [->|?]; [done|].
  destruct (N.eqb_spec c 8216) as [->|?]; [done|].
  destruct (N.eqb_spec c 8217) as [->|?]; done.
Qed.

Lemma count_keys_unfancy (s : list N) :
  count_if (is_key LANG_PUNCT_MAP) (map unfancy s)
  = count_if (is_key LANG_PUNCT_MAP) s.
Proof.
  induction s as [|c s IH]; cbn [map count_if]; [done|].
  by rewrite is_key_unfancy, IH.
Qed.

(** ** [str.replace] in general, and the line-ending step *)

Lemma replace_from_length (old new s : list N) (k : nat) :
  (length new ≤ 1)%nat → (length (replace_from old new s k) ≤ length s)%nat.
Proof.
  intros Hnew. revert k.
  induction s as [|c s IH]; intros k; simpl; [lia|].
  destruct k as [|k].
  - destruct (startswith old (c :: s)).
    + rewrite length_app. specialize (IH (length old - 1)%nat). lia.
    + simpl. specialize (IH O). lia.
  - specialize (IH k). lia.
Qed.

Lemma replace_from_Forall (A : N → Prop) (old new s : list N) (k : nat) :
  Forall A new → Forall A s → Forall A (replace_from old new s k).
Proof.
  intros Hnew Hs. revert k.
  induction Hs as [|c s Hc Hs IH]; intros k; simpl; [constructor|].
  destruct k as [|k]; [|apply IH].
  destruct (startswith old (c :: s)).
  - apply Forall_app. split; [done|apply IH].
  - constructor; [done|apply IH].
Qed.

Lemma replace_from_absent (a : N) (old new s : list N) :
  a ∉ s → replace_from (a :: old) new s 0 = s.
Proof.
  induction s as [|c s IH]; simpl; [done|].
  intros [Hne Hs]%not_elem_of_cons.
  destruct (N.eqb_spec a c); [congruence|]. simpl. by rewrite IH.
Qed.

Lemma normalize_newlines_length (s : list N) :
  (length (normalize_newlines s) ≤ length s)%nat.
Proof.
  unfold normalize_newlines, str_replace.
  etransitivity; [apply replace_from_length; simpl; lia|].
  apply replace_from_length. simpl. lia.
Qed.

Lemma normalize_newlines_Forall (A : N → Prop) (s : list N) :
  A 10 → Forall A s → Forall A (normalize_newlines s).
Proof.
  intros H10 Hs. unfold normalize_newlines, str_replace.
  apply replace_from_Forall; [by repeat constructor|].
  apply replace_from_Forall; [by repeat constructor|done].
Qed.

Lemma normalize_newlines_id (s : list N) :
  13 ∉ s → normalize_newlines s = s.
Proof.
  intros H. unfold normalize_newlines, str_replace.
  rewrite (replace_from_absent 13 [10] [10] s) by done.
  by rewrite replace_from_absent.
Qed.

(** ** The search loop as a two-state machine *)

Lemma take_length_take_while (P : N → bool) (s : list N) :
  take (length (take_while P s)) s = take_while P s.
Proof.
  induction s as [|c s IH]; simpl; [done|].
  destruct (P c); simpl; [by rewrite IH|done].
Qed.

Lemma take_while_ext (P Q : N → bool) (s : list N) :
  (∀ c, P c = Q c) → take_while P s = take_while Q s.
Proof.
  intros H. induction s as [|c s IH]; simpl; [done|]. by rewrite H, IH.
Qed.

Lemma greedy_last (cs : charset) (k : list N → option nat) (s : list N) :
  (∀ r, k r = Some O) →
  greedy cs k s = Some (length (take_while (charset_match cs) s)).
Proof.
  intros Hk. induction s as [|c s IH]; simpl; [apply Hk|].
  destruct (charset_match cs c); [by rewrite IH|apply Hk].
Qed.

Section scanner.
Variable p : list item.
Variable P : N → bool.
Variable start : list N → bool.

Hypothesis match_here_p : ∀ s,
  match_here p s = if start s then Some (length (take_while P s)) else None.
Hypothesis start_head : ∀ c s, start (c :: s) = true → P c = true.

Lemma scan_from_run (s : list N) :
  scan_from p s 0 = run P start false s
  ∧ scan_from p s (length (take_while P s)) = run P start true s.
Proof.
  induction s as [|c s [IH0 IH1]]; [done|].
  assert (scan_from p (c :: s) 0 = run P start false (c :: s)) as H0.
  { cbn [scan_from run andb]. rewrite match_here_p.
    destruct (start (c :: s)) eqn:Hst.
    - pose proof (start_head _ _ Hst) as HP.
      cbn [take_while]. rewrite HP. cbn [length take].
      by rewrite take_length_take_while, IH1.
    - by rewrite IH0. }
  split; [done|].
  cbn [take_while run andb]. destruct (P c) eqn:HP.
  - cbn [length scan_from]. done.
  - cbn [length]. rewrite H0. cbn [run andb].
    destruct (start (c :: s)) eqn:Hst; [|done].
    apply start_head in Hst. congruence.
Qed.

Lemma re_sub_run (repl s : list N) :
  re_sub p repl s = flat_map (render repl) (run P start false s).
Proof. unfold re_sub. by rewrite (proj1 (scan_from_run s)). Qed.

Lemma re_findall_run (s : list N) :
  re_findall p s = omap matched (run P start false s).
Proof. unfold re_findall. by rewrite (proj1 (scan_from_run s)). Qed.
End scanner.

(** *** [\s+] *)

Lemma match_here_multispace (s : list N) :
  match_here MULTISPACE_PATTERN s
  = if space_starts s then Some (length (take_while isspace s)) else None.
Proof.
  unfold MULTISPACE_PATTERN. destruct s as [|c s]; [done|].
  cbn [match_here space_starts take_while].
  assert (∀ d, charset_match (In false [CategorySpace]) d = isspace d) as Hcs.
  { intros d. cbn [charset_match existsb atom_match xorb].
    by rewrite orb_false_r. }
  rewrite Hcs. destruct (isspace c); [|done].
  rewrite greedy_last by done. cbn [fmap option_fmap option_map length].
  by rewrite (take_while_ext _ isspace s Hcs).
Qed.

Lemma render_collapse (b : bool) (s : list N) :
  flat_map (render [32]) (run isspace space_starts b s) = collapse b s.
Proof.
  revert b. induction s as [|c s IH]; intros b; [done|].
  cbn [run collapse space_starts]. destruct (isspace c), b; simpl; by rewrite IH.
Qed.

Lemma re_sub_multispace (s : list N) :
  re_sub MULTISPACE_PATTERN [32] s = collapse false s.
Proof.
  rewrite (re_sub_run _ isspace space_starts match_here_multispace).
  - apply render_collapse.
  - by intros c r.
Qed.

(** *** [\?utm_[^\s\n]+] *)

Lemma charset_nonspace (c : N) :
  charset_match (In true [CategorySpace; Literal 10]) c = nonspace c.
Proof.
  unfold nonspace. cbn [charset_match existsb atom_match xorb].
  destruct (N.eqb_spec 10 c) as [<-|_]; [done|].
  by rewrite !orb_false_r.
Qed.

Lemma charset_literal (l c : N) :
  charset_match (In false [Literal l]) c = (l =? c).
Proof. cbn [charset_match existsb atom_match xorb]. by rewrite orb_false_r. Qed.

(** A fragment start, spelled out. *)
Lemma utm_starts_spec (s : list N) :
  utm_starts s = true
  ↔ ∃ c r, s = [63; 117; 116; 109; 95] ++ c :: r ∧ isspace c = false.
Proof.
  unfold utm_starts. change (lit "?utm_") with [63; 117; 116; 109; 95].
  split.
  - intros [H1 H2]%andb_true_iff.
    do 5 (destruct s as [|? s]; [done|]).
    cbn [startswith] in H1.
    repeat (apply andb_true_iff in H1 as [?%N.eqb_eq H1]). subst.
    cbn [drop] in H2. destruct s as [|c r]; [done|].
    exists c, r. split; [done|]. by apply negb_true_iff.
  - intros (c & r & -> & Hc). simpl. by rewrite Hc.
Qed.

Lemma match_here_utm (s : list N) :
  match_here UTM_PATTERN s
  = if utm_starts s then Some (length (take_while nonspace s)) else None.
Proof.
  destruct (utm_starts s) eqn:Hst.
  - apply utm_starts_spec in Hst as (c & r & -> & Hc).
    unfold UTM_PATTERN. cbn [match_here app]. rewrite !charset_literal.
    cbn [N.eqb Pos.eqb]. rewrite charset_nonspace. unfold nonspace at 1.
    rewrite Hc. cbn [negb]. rewrite greedy_last by done.
    rewrite (take_while_ext _ nonspace r charset_nonspace).
    cbn [take_while]. unfold nonspace at 2 3 4 5 6 7. rewrite Hc. done.
  - unfold UTM_PATTERN.
    destruct s as [|c0 s]; [done|]. cbn [match_here]. rewrite charset_literal.
    destruct (N.eqb_spec 63 c0) as [<-|]; [|done].
    destruct s as [|c1 s]; [done|]. cbn [match_here]. rewrite charset_literal.
    destruct (N.eqb_spec 117 c1) as [<-|]; [|done].
    destruct s as [|c2 s]; [done|]. cbn [match_here]. rewrite charset_literal.
    destruct (N.eqb_spec 116 c2) as [<-|]; [|done].
    destruct s as [|c3 s]; [done|]. cbn [match_here]. rewrite charset_literal.
    destruct (N.eqb_spec 109 c3) as [<-|]; [|done].
    destruct s as [|c4 s]; [done|]. cbn [match_here]. rewrite charset_literal.
    destruct (N.eqb_spec 95 c4) as [<-|]; [|done].
    destruct s as [|c5 s]; [done|]. cbn [match_here]. rewrite charset_nonspace.
    destruct (nonspace c5) eqn:Hc; [|done].
    exfalso. unfold nonspace in Hc. apply negb_true_iff in Hc.
    enough (utm_starts ([63; 117; 116; 109; 95] ++ c5 :: s) = true) as E
      by (simpl in E; congruence).
    apply utm_starts_spec. eauto.
Qed.

Lemma utm_starts_head (c : N) (s : list N) :
  utm_starts (c :: s) = true → nonspace c = true.
Proof.
  intros (d & r & E & _)%utm_starts_spec. simpl in E.
  by injection E as ->.
Qed.

Lemma render_utm_removed (b : bool) (s : list N) :
  flat_map (render []) (run nonspace utm_starts b s) = utm_removed b s.
Proof.
  revert b. induction s as [|c s IH]; intros b; [done|].
  cbn [run utm_removed].
  destruct (utm_starts (c :: s)) eqn:Hst.
  - pose proof (utm_starts_head _ _ Hst) as Hc. rewrite Hc.
    unfold nonspace in Hc. apply negb_true_iff in Hc. rewrite Hc.
    destruct b; simpl; apply IH.
  - unfold nonspace. destruct (isspace c), b; simpl; by rewrite IH.
Qed.

Lemma matched_utm_count (b : bool) (s : list N) :
  length (omap matched (run nonspace utm_starts b s)) = utm_count b s.
Proof.
  revert b. induction s as [|c s IH]; intros b; [done|].
  cbn [run utm_count].
  destruct (utm_starts (c :: s)) eqn:Hst.
  - pose proof (utm_starts_head _ _ Hst) as Hc. rewrite Hc.
    unfold nonspace in Hc. apply negb_true_iff in Hc. rewrite Hc.
    destruct b; simpl; by rewrite IH.
  - unfold nonspace. destruct (isspace c), b; simpl; by rewrite IH.
Qed.

Lemma re_sub_utm (s : list N) : re_sub UTM_PATTERN [] s = utm_removed false s.
Proof.
  rewrite (re_sub_run _ nonspace utm_starts match_here_utm utm_starts_head).
  apply render_utm_removed.
Qed.

Lemma re_findall_utm (s : list N) :
  length (re_findall UTM_PATTERN s) = utm_count false s.
Proof.
  rewrite (re_findall_run _ nonspace utm_starts match_here_utm utm_starts_head).
  apply matched_utm_count.
Qed.

(** ** Trimming *)

Lemma take_drop_while (f : N → bool) (s : list N) :
  take_while f s ++ drop_while f s = s.
Proof.
  induction s as [|c s IH]; simpl; [done|].
  destruct (f c); simpl; [by rewrite IH|done].
Qed.

Lemma drop_while_length (f : N → bool) (s : list N) :
  (length (drop_while f s) ≤ length s)%nat.
Proof. induction s as [|c s IH]; simpl; [lia|]. destruct (f c); simpl; lia. Qed.

Lemma drop_while_Forall (A : N → Prop) (f : N → bool) (s : list N) :
  Forall A s → Forall A (drop_while f s).
Proof.
  induction 1 as [|c s Hc Hs IH]; simpl; [constructor|].
  destruct (f c); [done|by constructor].
Qed.

Lemma drop_while_head (f : N → bool) (s : list N) (c : N) :
  head (drop_while f s) = Some c → f c = false.
Proof.
  induction s as [|d s IH]; simpl; [done|].
  destruct (f d) eqn:Hd; [done|]. simpl. by intros [= <-].
Qed.

Lemma drop_while_id (f : N → bool) (s : list N) :
  (∀ c, head s = Some c → f c = false) → drop_while f s = s.
Proof. destruct s as [|d s]; simpl; [done|]. intros H. by rewrite (H d). Qed.

Lemma rstrip_prefix (s : list N) :
  ∃ w, s = rstrip s ++ w.
Proof.
  exists (reverse (take_while isspace (reverse s))). unfold rstrip.
  by rewrite <- reverse_app, take_drop_while, reverse_involutive.
Qed.

Lemma rstrip_last (s : list N) (c : N) :
  last (rstrip s) = Some c → isspace c = false.
Proof. unfold rstrip. rewrite last_reverse. apply drop_while_head. Qed.

Lemma rstrip_id (s : list N) :
  (∀ c, last s = Some c → isspace c = false) → rstrip s = s.
Proof.
  intros H. unfold rstrip. rewrite drop_while_id, reverse_involutive; [done|].
  intros c. rewrite head_reverse. apply H.
Qed.

Lemma rstrip_length (s : list N) : (length (rstrip s) ≤ length s)%nat.
Proof.
  unfold rstrip. rewrite length_reverse.
  etransitivity; [apply drop_while_length|]. by rewrite length_reverse.
Qed.

Lemma strip_length (s : list N) : (length (strip s) ≤ length s)%nat.
Proof.
  unfold strip, lstrip.
  etransitivity; [apply rstrip_length|apply drop_while_length].
Qed.

Lemma strip_Forall (A : N → Prop) (s : list N) :
  Forall A s → Forall A (strip s).
Proof.
  intros H. unfold strip, rstrip, lstrip.
  apply Forall_reverse, drop_while_Forall, Forall_reverse.
  by apply drop_while_Forall.
Qed.

(** ** Whitespace collapse *)

Lemma collapse_length (b : bool) (s : list N) :
  (length (collapse b s) ≤ length s)%nat.
Proof.
  revert b. induction s as [|c s IH]; intros b; simpl; [lia|].
  destruct (isspace c); [destruct b|]; simpl.
  - specialize (IH true). lia.
  - specialize (IH true). lia.
  - specialize (IH false). lia.
Qed.

Lemma collapse_Forall (A : N → Prop) (b : bool) (s : list N) :
  A 32 → Forall A s → Forall A (collapse b s).
Proof.
  intros H32 Hs. revert b.
  induction Hs as [|c s Hc Hs IH]; intros b; simpl; [constructor|].
  destruct (isspace c); [destruct b|]; try constructor; auto.
Qed.

Lemma collapse_tidy (b : bool) (s : list N) : Forall tidy_char (collapse b s).
Proof.
  revert b. induction s as [|c s IH]; intros b; simpl; [constructor|].
  destruct (isspace c) eqn:Hc; [destruct b|]; try constructor; auto.
  - by intros _.
  - intros H. congruence.
Qed.

Lemma collapse_single_spaced (b : bool) (s : list N) :
  single_spaced b (collapse b s) = true.
Proof.
  revert b. induction s as [|c s IH]; intros b; simpl; [done|].
  destruct (isspace c) eqn:Hc; [destruct b|]; simpl.
  - apply IH.
  - apply IH.
  - rewrite Hc. apply IH.
Qed.

Lemma single_spaced_weaken (b : bool) (s : list N) :
  single_spaced true s = true → single_spaced b s = true.
Proof.
  destruct s as [|c s]; simpl; [done|]. by destruct (isspace c), b.
Qed.

Lemma single_spaced_lstrip (b : bool) (s : list N) :
  single_spaced b s = true → single_spaced true (lstrip s) = true.
Proof.
  unfold lstrip. revert b.
  induction s as [|c s IH]; intros b; simpl; [done|].
  destruct (isspace c) eqn:Hc.
  - intros [_ H]%andb_true_iff. by apply (IH true).
  - simpl. by rewrite Hc.
Qed.

Lemma single_spaced_prefix (b : bool) (p w : list N) :
  single_spaced b (p ++ w) = true → single_spaced b p = true.
Proof.
  revert b. induction p as [|c p IH]; intros b; simpl; [done|].
  destruct (isspace c).
  - intros [-> H]%andb_true_iff. simpl. by apply IH.
  - apply IH.
Qed.

Lemma collapse_spaces_eq (s : list N) :
  collapse_spaces s = rstrip (lstrip (collapse false s)).
Proof. unfold collapse_spaces, strip. by rewrite re_sub_multispace. Qed.

Lemma collapse_spaces_normal (s : list N) : normal (collapse_spaces s).
Proof.
  rewrite collapse_spaces_eq.
  destruct (rstrip_prefix (lstrip (collapse false s))) as [w Hw].
  pose proof (collapse_tidy false s) as Ht.
  apply (drop_while_Forall _ isspace) in Ht. fold (lstrip (collapse false s)) in Ht.
  pose proof (single_spaced_lstrip _ _ (collapse_single_spaced false s)) as Hs.
  rewrite Hw in Ht, Hs. apply Forall_app in Ht as [Ht _].
  apply single_spaced_prefix in Hs.
  split; [done|]. split; [done|]. apply rstrip_last.
Qed.

Lemma collapse_id (b : bool) (s : list N) :
  Forall tidy_char s → single_spaced b s = true → collapse b s = s.
Proof.
  intros Ht. revert b.
  induction Ht as [|c s Hc Ht IH]; intros b; simpl; [done|].
  destruct (isspace c) eqn:Hsp.
  - intros [Hb H]%andb_true_iff. apply negb_true_iff in Hb. subst b.
    rewrite (IH true) by done. by rewrite (Hc Hsp).
  - intros H. by rewrite (IH false).
Qed.

Lemma lstrip_id (s : list N) : single_spaced true s = true → lstrip s = s.
Proof.
  destruct s as [|c s]; simpl; [done|]. unfold lstrip. simpl.
  by destruct (isspace c).
Qed.

Lemma collapse_spaces_id (s : list N) : normal s → collapse_spaces s = s.
Proof.
  intros (Ht & Hs & Hl). rewrite collapse_spaces_eq.
  rewrite collapse_id; [|done|by apply single_spaced_weaken].
  rewrite lstrip_id by done. by apply rstrip_id.
Qed.

Lemma collapse_spaces_length (s : list N) :
  (length (collapse_spaces s) ≤ length s)%nat.
Proof.
  rewrite collapse_spaces_eq.
  etransitivity; [apply strip_length|apply collapse_length].
Qed.

Lemma collapse_spaces_Forall (A : N → Prop) (s : list N) :
  A 32 → Forall A s → Forall A (collapse_spaces s).
Proof.
  intros H32 Hs. rewrite collapse_spaces_eq.
  by apply strip_Forall, collapse_Forall.
Qed.

(** ** UTM removal *)

Lemma utm_removed_length (b : bool) (s : list N) :
  (length (utm_removed b s) ≤ length s)%nat.
Proof.
  revert b. induction s as [|c s IH]; intros b; cbn [utm_removed]; [done|].
  pose proof (IH true). pose proof (IH false).
  destruct (isspace c); [simpl; lia|].
  destruct b; [simpl; lia|].
  destruct (utm_starts (c :: s)); simpl; lia.
Qed.

Lemma utm_removed_Forall (A : N → Prop) (b : bool) (s : list N) :
  Forall A s → Forall A (utm_removed b s).
Proof.
  intros Hs. revert b.
  induction Hs as [|c s Hc Hs IH]; intros b; cbn [utm_removed]; [constructor|].
  destruct (isspace c); [by constructor|].
  destruct b; [done|].
  destruct (utm_starts (c :: s)); [done|by constructor].
Qed.

Lemma utm_starts_space (c : N) (s : list N) :
  isspace c = true → utm_starts (c :: s) = false.
Proof.
  intros Hc. destruct (utm_starts (c :: s)) eqn:Hst; [|done].
  apply utm_starts_head in Hst. unfold nonspace in Hst. by rewrite Hc in Hst.
Qed.

Lemma utm_free_removed_id (s : list N) :
  utm_free s = true → utm_removed false s = s.
Proof.
  induction s as [|c s IH]; cbn [utm_free utm_removed]; [done|].
  intros [Hst Hs]%andb_true_iff. apply negb_true_iff in Hst.
  rewrite Hst, IH by done. by destruct (isspace c).
Qed.

Lemma utm_free_count_zero (s : list N) :
  utm_free s = true → utm_count false s = O.
Proof.
  induction s as [|c s IH]; cbn [utm_free utm_count]; [done|].
  intros [Hst Hs]%andb_true_iff. apply negb_true_iff in Hst.
  rewrite Hst, IH by done. by destruct (isspace c).
Qed.

(** A fragment start seen through a transformation that keeps runs of
    non-whitespace characters in place. *)
Lemma utm_starts_transfer (c : N) (x y : list N) :
  (∀ w rest, y = w ++ rest → Forall (λ d, isspace d = false) w →
             ∃ rest', x = w ++ rest') →
  utm_starts (c :: y) = true → utm_starts (c :: x) = true.
Proof.
  intros Hxy (c5 & r & E & Hc5)%utm_starts_spec.
  simpl in E. injection E as -> ->.
  destruct (Hxy [117; 116; 109; 95; c5] r) as [rest' ->]; [done| |].
  - by repeat constructor.
  - apply utm_starts_spec. by exists c5, rest'.
Qed.

Lemma utm_removed_inside_head (s : list N) (c : N) :
  head (utm_removed true s) = Some c → isspace c = true.
Proof.
  induction s as [|d s IH]; cbn [utm_removed]; [done|].
  destruct (isspace d) eqn:Hd; [|done]. simpl. by intros [= <-].
Qed.

Lemma utm_removed_keeps_word (s w rest : list N) :
  utm_removed false s = w ++ rest →
  Forall (λ d, isspace d = false) w →
  ∃ rest', s = w ++ rest'.
Proof.
  intros E Hw. revert s E.
  induction Hw as [|e w He Hw IH]; intros s E; [by exists s|].
  destruct s as [|d s]; [done|]. cbn [utm_removed] in E.
  destruct (isspace d) eqn:Hd.
  { simpl in E. injection E as -> _. congruence. }
  destruct (utm_starts (d :: s)).
  { pose proof (utm_removed_inside_head s e) as H.
    rewrite E in H. specialize (H eq_refl). congruence. }
  simpl in E. injection E as -> E.
  destruct (IH _ E) as [rest' ->]. by exists rest'.
Qed.

Lemma utm_removed_free (b : bool) (s : list N) :
  utm_free (utm_removed b s) = true.
Proof.
  revert b. induction s as [|c s IH]; intros b; cbn [utm_removed]; [done|].
  destruct (isspace c) eqn:Hc.
  { cbn [utm_free]. by rewrite utm_starts_space, IH. }
  destruct b; [apply IH|].
  destruct (utm_starts (c :: s)) eqn:Hst; [apply IH|].
  cbn [utm_free]. rewrite IH, andb_true_r. apply negb_true_iff.
  destruct (utm_starts (c :: utm_removed false s)) eqn:Hst'; [|done].
  rewrite <- Hst. symmetry.
  apply (utm_starts_transfer c s (utm_removed false s)); [|done].
  intros w rest E Hw. by apply (utm_removed_keeps_word s w rest).
Qed.

Lemma utm_count_bound (n : nat) :
  ∀ (s : list N) (b : bool),
    (length s ≤ n)%nat → (6 * utm_count b s ≤ length s)%nat.
Proof.
  induction n as [|n IH]; intros s b Hn.
  { destruct s; [simpl; lia|simpl in Hn; lia]. }
  destruct s as [|c s]; [simpl; lia|]. simpl in Hn.
  cbn [utm_count length].
  pose proof (IH s true ltac:(lia)). pose proof (IH s false ltac:(lia)).
  destruct (isspace c); [lia|].
  destruct b; [lia|].
  destruct (utm_starts (c :: s)) eqn:Hst; [|lia].
  apply utm_starts_spec in Hst as (c5 & r & E & Hc5).
  simpl in E. injection E as -> ->.
  cbn [utm_count]. rewrite Hc5.
  change (isspace 117) with false. change (isspace 116) with false.
  change (isspace 109) with false. change (isspace 95) with false.
  cbn iota. simpl in Hn. specialize (IH r true ltac:(lia)). simpl. lia.
Qed.

(** *** Whitespace collapse creates no fragment *)

Lemma collapse_keeps_word (s w rest : list N) :
  collapse false s = w ++ rest →
  Forall (λ d, isspace d = false) w →
  ∃ rest', s = w ++ rest'.
Proof.
  intros E Hw. revert s E.
  induction Hw as [|e w He Hw IH]; intros s E; [by exists s|].
  destruct s as [|d s]; [done|]. cbn [collapse] in E.
  destruct (isspace d) eqn:Hd.
  { simpl in E. injection E as <- _. done. }
  simpl in E. injection E as -> E.
  destruct (IH _ E) as [rest' ->]. by exists rest'.
Qed.

Lemma utm_free_collapse (b : bool) (s : list N) :
  utm_free s = true → utm_free (collapse b s) = true.
Proof.
  revert b. induction s as [|c s IH]; intros b; cbn [utm_free collapse]; [done|].
  intros [Hst Hs]%andb_true_iff. apply negb_true_iff in Hst.
  destruct (isspace c) eqn:Hc.
  { destruct b; [by apply IH|].
    cbn [utm_free]. by rewrite utm_starts_space, IH. }
  cbn [utm_free]. rewrite IH, andb_true_r by done. apply negb_true_iff.
  destruct (utm_starts (c :: collapse false s)) eqn:Hst'; [|done].
  rewrite <- Hst. symmetry.
  apply (utm_starts_transfer c s (collapse false s)); [|done].
  intros w rest E Hw. by apply (collapse_keeps_word s w rest).
Qed.

Lemma utm_free_lstrip (s : list N) :
  utm_free s = true → utm_free (lstrip s) = true.
Proof.
  unfold lstrip. induction s as [|c s IH]; [done|].
  cbn [drop_while]. destruct (isspace c); [|done].
  cbn [utm_free]. intros [_ Hs]%andb_true_iff. by apply IH.
Qed.

Lemma utm_free_prefix (p w : list N) :
  utm_free (p ++ w) = true → utm_free p = true.
Proof.
  induction p as [|c p IH]; [done|].
  cbn [app utm_free]. intros [Hst Hs]%andb_true_iff. apply negb_true_iff in Hst.
  rewrite IH, andb_true_r by done. apply negb_true_iff.
  destruct (utm_starts (c :: p)) eqn:Hst'; [|done].
  rewrite <- Hst. symmetry.
  apply utm_starts_spec in Hst' as (c5 & r & E & Hc5).
  apply utm_starts_spec. exists c5, (r ++ w).
  split; [|done]. change (c :: p ++ w) with ((c :: p) ++ w).
  rewrite E. by rewrite <- !app_assoc.
Qed.

Lemma utm_free_collapse_spaces (s : list N) :
  utm_free s = true → utm_free (collapse_spaces s) = true.
Proof.
  intros H. rewrite collapse_spaces_eq.
  destruct (rstrip_prefix (lstrip (collapse false s))) as [w Hw].
  apply (utm_free_prefix _ w). rewrite <- Hw.
  by apply utm_free_lstrip, utm_free_collapse.
Qed.

(** ** The whole pipeline *)

Lemma clean_text_eq (s : list N) (m : bool) (o : pyobj) :
  clean_text s m o
  = Ok (final_text s m, PyDict (final_summary s m (dict_of o))).
Proof.
  unfold clean_text, final_summary, final_text, text_before_utm.
  destruct m.
  - destruct (replace_lang_punct (replace_quotes s)) as [t r].
    by destruct o.
  - by destruct o.
Qed.

Lemma clean_eq (s : list N) (m : bool) :
  clean s m = Ok (final_text s m, PyDict (final_summary s m ∅)).
Proof. apply clean_text_eq. Qed.

Lemma text_before_utm_eq (s : list N) (m : bool) :
  text_before_utm s m
  = collapse_spaces
      (normalize_newlines
         (if m then flat_map (table_subst LANG_PUNCT_MAP) (map unfancy s)
          else map unfancy s)).
Proof.
  unfold text_before_utm.
  rewrite replace_lang_punct_spec, replace_quotes_map. by destruct m.
Qed.

Lemma final_text_eq (s : list N) (m : bool) :
  final_text s m = collapse_spaces (utm_removed false (text_before_utm s m)).
Proof. unfold final_text. by rewrite re_sub_utm. Qed.

Lemma final_text_normal (s : list N) (m : bool) : normal (final_text s m).
Proof. rewrite final_text_eq. apply collapse_spaces_normal. Qed.

Lemma final_text_utm_free (s : list N) (m : bool) :
  utm_free (final_text s m) = true.
Proof.
  rewrite final_text_eq. apply utm_free_collapse_spaces, utm_removed_free.
Qed.

Lemma table_subst_Forall (A : N → Prop) (table : list (list N * list N)) (c : N) :
  Forall (λ e, Forall A e.2) table → A c → Forall A (table_subst table c).
Proof.
  intros Ht Hc. induction Ht as [|[src dst] table Hd Ht IH]; simpl.
  - by repeat constructor.
  - by destruct (bool_decide (src = [c])).
Qed.

Lemma flat_map_Forall (A : N → Prop) (f : N → list N) (s : list N) :
  (∀ c, A c → Forall A (f c)) → Forall A s → Forall A (flat_map f s).
Proof.
  intros Hf. induction 1 as [|c s Hc Hs IH]; simpl; [constructor|].
  apply Forall_app. auto.
Qed.

(** Whatever holds of the space, the line feed, the table's targets and
    every character once the quotes are replaced, holds of every character
    of the cleaned text. *)
Lemma final_text_Forall (A : N → Prop) (s : list N) (m : bool) :
  A 32 → A 10 → Forall (λ e, Forall A e.2) LANG_PUNCT_MAP →
  Forall A (map unfancy s) → Forall A (final_text s m).
Proof.
  intros H32 H10 Ht Hs. rewrite final_text_eq, text_before_utm_eq.
  apply collapse_spaces_Forall; [done|]. apply utm_removed_Forall.
  apply collapse_spaces_Forall; [done|].
  apply normalize_newlines_Forall; [done|].
  destruct m; [|done].
  apply flat_map_Forall; [|done]. intros c Hc. by apply table_subst_Forall.
Qed.

Lemma text_before_utm_length (s : list N) (m : bool) :
  (length (text_before_utm s m) ≤ (if m then 3 else 1) * length s)%nat.
Proof.
  rewrite text_before_utm_eq.
  etransitivity; [apply collapse_spaces_length|].
  etransitivity; [apply normalize_newlines_length|].
  destruct m.
  - etransitivity; [apply (flat_map_length_le _ 3), table_subst_length|].
    by rewrite length_map.
  - rewrite length_map. lia.
Qed.

Lemma final_text_length (s : list N) (m : bool) :
  (length (final_text s m) ≤ (if m then 3 else 1) * length s)%nat.
Proof.
  rewrite final_text_eq.
  etransitivity; [apply collapse_spaces_length|].
  etransitivity; [apply utm_removed_length|]. apply text_before_utm_length.
Qed.

(** *** A cleaned text is a fixed point *)

(** Closes [c ∉ [c1; ...; cn]] on code points. *)
Ltac absent :=
  repeat (apply not_elem_of_cons; split; [lia|]); apply not_elem_of_nil.

Lemma unfancy_fixed (c : N) :
  c ∉ [8220; 8221; 8216; 8217] → unfancy c = c.
Proof.
  intros Hc. unfold unfancy.
  destruct (N.eqb_spec c 8220) as [->|?]; [set_solver|].
  destruct (N.eqb_spec c 8221) as [->|?]; [set_solver|].
  destruct (N.eqb_spec c 8216) as [->|?]; [set_solver|].
  destruct (N.eqb_spec c 8217) as [->|?]; [set_solver|]. done.
Qed.

Lemma unfancy_not_fancy (c : N) : unfancy c ∉ [8220; 8221; 8216; 8217].
Proof.
  unfold unfancy.
  destruct (N.eqb_spec c 8220) as [->|?]; [cbn; absent|].
  destruct (N.eqb_spec c 8221) as [->|?]; [cbn; absent|].
  destruct (N.eqb_spec c 8216) as [->|?]; [cbn; absent|].
  destruct (N.eqb_spec c 8217) as [->|?]; cbn; absent.
Qed.

Lemma map_unfancy_fixed (s : list N) :
  Forall (λ c, c ∉ [8220; 8221; 8216; 8217]) s → map unfancy s = s.
Proof.
  induction 1 as [|c s Hc Hs IH]; simpl; [done|].
  by rewrite unfancy_fixed, IH.
Qed.

Lemma flat_map_table_subst_fixed (s : list N) :
  Forall (λ c, is_key LANG_PUNCT_MAP c = false) s →
  flat_map (table_subst LANG_PUNCT_MAP) s = s.
Proof.
  induction 1 as [|c s Hc Hs IH]; cbn [flat_map]; [done|].
  by rewrite table_subst_nonkey, IH.
Qed.

Lemma table_subst_no_key (c : N) :
  Forall (λ d, is_key LANG_PUNCT_MAP d = false) (table_subst LANG_PUNCT_MAP c).
Proof.
  destruct (is_key LANG_PUNCT_MAP c) eqn:Hk.
  - unfold LANG_PUNCT_MAP in *. cbn [is_key existsb fst] in Hk.
    cbn [table_subst]. rewrite !key_test in *.
    repeat (destruct (_ =? _); [by repeat constructor|]). done.
  - rewrite table_subst_nonkey by done. by constructor.
Qed.

Lemma normal_no_cr (t : list N) : normal t → 13 ∉ t.
Proof.
  intros (Ht & _ & _) Hin. rewrite Forall_forall in Ht.
  by specialize (Ht _ Hin eq_refl).
Qed.

(** A text that is already clean comes back unchanged, at the UTM step and
    at the end. *)
Lemma text_before_utm_fixed (t : list N) (m : bool) :
  normal t →
  Forall (λ c, c ∉ [8220; 8221; 8216; 8217]) t →
  (m = true → Forall (λ c, is_key LANG_PUNCT_MAP c = false) t) →
  text_before_utm t m = t.
Proof.
  intros Hn Hq Hk.
  rewrite text_before_utm_eq, map_unfancy_fixed by done.
  destruct m.
  - rewrite flat_map_table_subst_fixed by auto.
    rewrite normalize_newlines_id by by apply normal_no_cr.
    by apply collapse_spaces_id.
  - rewrite normalize_newlines_id by by apply normal_no_cr.
    by apply collapse_spaces_id.
Qed.

Lemma final_text_fixed (t : list N) (m : bool) :
  normal t → utm_free t = true →
  Forall (λ c, c ∉ [8220; 8221; 8216; 8217]) t →
  (m = true → Forall (λ c, is_key LANG_PUNCT_MAP c = false) t) →
  final_text t m = t.
Proof.
  intros Hn Hu Hq Hk.
  rewrite final_text_eq, text_before_utm_fixed, utm_free_removed_id by done.
  by apply collapse_spaces_id.
Qed.

Lemma final_text_no_fancy (s : list N) (m : bool) :
  Forall (λ c, c ∉ [8220; 8221; 8216; 8217]) (final_text s m).
Proof.
  apply final_text_Forall.
  - absent.
  - absent.
  - unfold LANG_PUNCT_MAP. repeat constructor; absent.
  - apply Forall_forall. intros c (d & -> & _)%list_elem_of_fmap.
    apply unfancy_not_fancy.
Qed.

Lemma final_text_no_key (s : list N) :
  Forall (λ c, is_key LANG_PUNCT_MAP c = false) (final_text s true).
Proof.
  rewrite final_text_eq, text_before_utm_eq.
  apply collapse_spaces_Forall; [done|]. apply utm_removed_Forall.
  apply collapse_spaces_Forall; [done|].
  apply normalize_newlines_Forall; [done|].
  induction (map unfancy s) as [|c l IH]; simpl; [constructor|].
  apply Forall_app. split; [apply table_subst_no_key|done].
Qed.

Lemma final_text_idem (s : list N) (m : bool) :
  final_text (final_text s m) m = final_text s m.
Proof.
  apply final_text_fixed.
  - apply final_text_normal.
  - apply final_text_utm_free.
  - apply final_text_no_fancy.
  - intros ->. apply final_text_no_key.
Qed.

Lemma count_if_none (f : N → bool) (t : list N) :
  Forall (λ c, f c = false) t → count_if f t = O.
Proof. induction 1 as [|c t Hc Ht IH]; simpl; [done|]. by rewrite Hc. Qed.

Lemma count_occ_none (a : N) (l : list N) (t : list N) :
  a ∈ l → Forall (λ c, c ∉ l) t → count_occ N.eq_dec t a = O.
Proof.
  intros Ha Ht. apply count_occ_absent. intros Hin.
  rewrite Forall_forall in Ht. by apply (Ht a).
Qed.

(** ** Reading the summary *)

Lemma summary_fancy_double (s : list N) (m : bool) (d : gmap string Z) :
  final_summary s m d !! "fancy_double_before"
  = Some (Z.of_nat (count_occ N.eq_dec s 8220%N + count_occ N.eq_dec s 8221%N)).
Proof.
  unfold final_summary. rewrite <- fancy_double_count.
  destruct m; repeat (rewrite lookup_insert_ne by done); apply lookup_insert_eq.
Qed.

Lemma summary_fancy_single (s : list N) (m : bool) (d : gmap string Z) :
  final_summary s m d !! "fancy_single_before"
  = Some (Z.of_nat (count_occ N.eq_dec s 8216%N + count_occ N.eq_dec s 8217%N)).
Proof.
  unfold final_summary. rewrite <- fancy_single_count.
  destruct m; repeat (rewrite lookup_insert_ne by done); apply lookup_insert_eq.
Qed.

Lemma summary_lang_punct (s : list N) (m : bool) :
  final_summary s m ∅ !! "lang_punct_replaced"
  = if m then Some (Z.of_nat (count_if (is_key LANG_PUNCT_MAP) s)) else None.
Proof.
  unfold final_summary.
  destruct m; repeat (rewrite lookup_insert_ne by done).
  - rewrite lookup_insert_eq, replace_lang_punct_spec, replace_quotes_map.
    cbn [snd]. by rewrite count_keys_unfancy.
  - apply lookup_empty.
Qed.

Lemma summary_utm_count (s : list N) (m : bool) (d : gmap string Z) :
  final_summary s m d !! "utm_removed_count"
  = Some (Z.of_nat (utm_count false (text_before_utm s m))).
Proof.
  unfold final_summary. rewrite re_findall_utm.
  rewrite lookup_insert_ne by done. apply lookup_insert_eq.
Qed.

Lemma summary_final_length (s : list N) (m : bool) (d : gmap string Z) :
  final_summary s m d !! "final_length"
  = Some (Z.of_nat (length (final_text s m))).
Proof. unfold final_summary. apply lookup_insert_eq. Qed.

(** The keys of a fresh summary, one by one. *)
Lemma summary_keys (s : list N) (m : bool) (k : string) (v : Z) :
  final_summary s m ∅ !! k = Some v →
  k = "fancy_double_before" ∨ k = "fancy_single_before"
  ∨ (k = "lang_punct_replaced" ∧ m = true)
  ∨ k = "utm_removed_count" ∨ k = "final_length".
Proof.
  unfold final_summary. intros H.
  destruct (decide (k = "final_length")) as [->|?]; [tauto|].
  rewrite lookup_insert_ne in H by done.
  destruct (decide (k = "utm_removed_count")) as [->|?]; [tauto|].
  rewrite lookup_insert_ne in H by done.
  destruct (decide (k = "fancy_double_before")) as [->|?]; [tauto|].
  destruct (decide (k = "fancy_single_before")) as [->|?]; [tauto|].
  destruct m.
  - destruct (decide (k = "lang_punct_replaced")) as [->|?]; [tauto|].
    by rewrite !lookup_insert_ne, lookup_empty in H.
  - by rewrite !lookup_insert_ne, lookup_empty in H.
Qed.

(** ** The shape of a cleaned text, read off [normal] *)

Lemma single_spaced_head (s : list N) (c : N) :
  single_spaced true s = true → head s = Some c → isspace c = false.
Proof.
  destruct s as [|d s]; simpl; [done|]. intros H [= <-].
  by destruct (isspace d).
Qed.

Lemma single_spaced_lookup (b : bool) (s : list N) (i : nat) (c d : N) :
  single_spaced b s = true →
  s !! i = Some c → s !! S i = Some d →
  isspace c = true → isspace d = true → False.
Proof.
  revert b i. induction s as [|e s IH]; intros b i Hs Hi HSi Hc Hd; [done|].
  cbn [single_spaced] in Hs. destruct i as [|i].
  - simpl in Hi. injection Hi as ->. rewrite Hc in Hs.
    apply andb_true_iff in Hs as [_ Hs].
    destruct s as [|e s]; [done|]. simpl in HSi. injection HSi as ->.
    simpl in Hs. by rewrite Hd in Hs.
  - destruct (isspace e).
    + apply andb_true_iff in Hs as [_ Hs]. by apply (IH true i).
    + by apply (IH false i).
Qed.

(** ** The fragments [findall] returns *)

Lemma take_while_nonspace (s : list N) :
  Forall (λ c, isspace c = false) (take_while nonspace s).
Proof.
  induction s as [|c s IH]; simpl; [constructor|].
  unfold nonspace at 1. destruct (isspace c) eqn:Hc; simpl; by constructor.
Qed.

Lemma run_utm_matches (b : bool) (s : list N) :
  Forall (λ m, ∃ w, m = [63; 117; 116; 109; 95] ++ w ∧ w ≠ []
                    ∧ Forall (λ c, isspace c = false) w)
         (omap matched (run nonspace utm_starts b s)).
Proof.
  revert b. induction s as [|c s IH]; intros b; [constructor|].
  cbn [run]. destruct (b && nonspace c); [apply IH|].
  destruct (utm_starts (c :: s)) eqn:Hst; [|apply IH].
  cbn [omap matched]. constructor; [|apply IH].
  apply utm_starts_spec in Hst as (c5 & r & -> & Hc5).
  exists (c5 :: take_while nonspace r). split; [|split; [done|]].
  - cbn [app take_while]. unfold nonspace at 1 2 3 4 5 6. rewrite Hc5. done.
  - constructor; [done|apply take_while_nonspace].
Qed.

(** ** [clean_text] in the module namespace *)

(** Whatever the namespace holds, a call leaves it as it found it. *)
Lemma clean_text_in_frame (s : list N) (m : bool) (o : pyobj) (g : globals) :
  (clean_text_in s m o g).2 = g.
Proof.
  unfold clean_text_in, load, lift, mbind, stateful_bind, mret, stateful_ret.
  destruct m.
  - destruct (foldl lang_punct_step _ _) as [t r]. by destruct o.
  - by destruct o.
Qed.

(** The result depends on the namespace through the five names only. *)
Lemma clean_text_in_reads (s : list N) (m : bool) (o : pyobj) (g1 g2 : globals) :
  g_LANG_PUNCT_MAP g1 = g_LANG_PUNCT_MAP g2 →
  g_FANCY_DOUBLE g1 = g_FANCY_DOUBLE g2 →
  g_FANCY_SINGLE g1 = g_FANCY_SINGLE g2 →
  g_UTM_PATTERN g1 = g_UTM_PATTERN g2 →
  g_MULTISPACE_PATTERN g1 = g_MULTISPACE_PATTERN g2 →
  (clean_text_in s m o g1).1 = (clean_text_in s m o g2).1.
Proof.
  intros H1 H2 H3 H4 H5.
  unfold clean_text_in, load, lift, mbind, stateful_bind, mret, stateful_ret.
  destruct m, o; cbn beta iota; rewrite ?H1, ?H2, ?H3;
    try destruct (foldl lang_punct_step _ _) as [t r];
    cbn [setitem]; cbn beta iota; by rewrite ?H1, ?H2, ?H3, ?H4, ?H5.
Qed.

(** In a namespace whose five names are intact it is [clean_text]. *)
Lemma clean_text_in_intact (s : list N) (m : bool) (o : pyobj) (g : globals) :
  constants_intact g → (clean_text_in s m o g).1 = clean_text s m o.
Proof.
  intros (H1 & H2 & H3 & H4 & H5).
  unfold clean_text_in, clean_text, replace_quotes, replace_lang_punct,
    collapse_spaces, load, lift, mbind, stateful_bind, mret, stateful_ret.
  destruct m, o; cbn beta iota; rewrite ?H1, ?H2, ?H3;
    try destruct (foldl lang_punct_step _ _) as [t r];
    cbn [setitem]; cbn beta iota; by rewrite ?H1, ?H2, ?H3, ?H4, ?H5.
Qed.

Lemma imported_intact (pyperclip colorama : bool) :
  constants_intact (imported pyperclip colorama).
Proof. by repeat split. Qed.

Lemma run_action_intact (g : globals) (a : action) :
  constants_intact g → constants_intact (run_action g a).
Proof.
  intros Hg. destruct a as [s m o|[|]]; cbn [run_action].
  - by rewrite clean_text_in_frame.
  - done.
  - done.
Qed.

Lemma run_actions_intact (history : list action) (g : globals) :
  constants_intact g → constants_intact (run_actions history g).
Proof.
  unfold run_actions. revert g.
  induction history as [|a history IH]; intros g Hg; [done|].
  cbn [foldl]. by apply IH, run_action_intact.
Qed.

(** * The properties of [clean] *)

(** Worked inputs. *)
Example clean_mixed_whitespace :
  ∃ d, clean (lit "a" ++ [9; 9] ++ lit "b" ++ [10; 10] ++ lit "c   d") false
       = Ok (lit "a b c d", PyDict d).
Proof. rewrite clean_eq. eexists. f_equal. Qed.

Example clean_spanish :
  ∃ d, clean ([191] ++ lit "Qu" ++ [233] ++ lit "? " ++ [161] ++ lit "Vamos!") true
       = Ok (lit "?Qu" ++ [233] ++ lit "? !Vamos!", PyDict d)
       ∧ d !! "lang_punct_replaced" = Some 2%Z.
Proof. rewrite clean_eq. eexists. split; [f_equal|]; by vm_compute. Qed.

(** C1: for every input string and every language mode, the summary's
    [final_length] entry is the character length of the returned text. *)
Theorem final_length_is_length (s : list N) (m : bool) :
  ∃ t d, clean s m = Ok (t, PyDict d)
         ∧ d !! "final_length" = Some (Z.of_nat (length t)).
Proof.
  exists (final_text s m), (final_summary s m ∅).
  split; [apply clean_eq|apply summary_final_length].
Qed.

(** C2: [clean_text] raises on no string, whatever the language mode and
    the summary object passed; on the empty string it returns the empty
    string and a summary whose four counters are zero, with
    [lang_punct_replaced] zero in language mode and absent otherwise. *)
Theorem clean_total_and_empty :
  (∀ (s : list N) (m : bool) (o : pyobj),
     ∃ t d, clean_text s m o = Ok (t, PyDict d))
  ∧ (∀ m : bool,
       ∃ d, clean [] m = Ok ([], PyDict d)
            ∧ d !! "fancy_double_before" = Some 0%Z
            ∧ d !! "fancy_single_before" = Some 0%Z
            ∧ d !! "utm_removed_count" = Some 0%Z
            ∧ d !! "final_length" = Some 0%Z
            ∧ d !! "lang_punct_replaced" = if m then Some 0%Z else None).
Proof.
  split.
  - intros s m o. rewrite clean_text_eq. eauto.
  - intros m. exists (final_summary [] m ∅). rewrite clean_eq.
    destruct m; repeat split; by vm_compute.
Qed.

(** C3: [fancy_double_before] and [fancy_single_before] count the two
    double-quote glyphs and the two single-quote glyphs in the input as it
    was passed; the quote loops then turn every double-quote glyph into the
    ASCII double quote and every single-quote glyph into the ASCII
    apostrophe, so that the cleaned text is that of the input with the
    glyphs replaced and holds no glyph; and the worked input yields the text
    with ASCII quotes and the counts 2 and 0. *)
Theorem fancy_quotes_counted_then_replaced :
  (∀ (s : list N) (m : bool),
     ∃ t d, clean s m = Ok (t, PyDict d)
            ∧ d !! "fancy_double_before"
              = Some (Z.of_nat (count_occ N.eq_dec s 8220%N
                                + count_occ N.eq_dec s 8221%N))
            ∧ d !! "fancy_single_before"
              = Some (Z.of_nat (count_occ N.eq_dec s 8216%N
                                + count_occ N.eq_dec s 8217%N))
            ∧ replace_quotes s = map unfancy s
            ∧ (∃ d', clean (map unfancy s) m = Ok (t, PyDict d'))
            ∧ Forall (λ c, c ∉ [8220; 8221; 8216; 8217]) t)
  ∧ (∃ d, clean (lit "Hello " ++ [8220] ++ lit "World" ++ [8221]) false
          = Ok (lit "Hello " ++ [34] ++ lit "World" ++ [34], PyDict d)
          ∧ d !! "fancy_double_before" = Some 2%Z
          ∧ d !! "fancy_single_before" = Some 0%Z).
Proof.
  split.
  - intros s m. exists (final_text s m), (final_summary s m ∅).
    split; [apply clean_eq|].
    split; [apply summary_fancy_double|].
    split; [apply summary_fancy_single|].
    split; [apply replace_quotes_map|].
    split; [|apply final_text_no_fancy].
    exists (final_summary (map unfancy s) m ∅). rewrite clean_eq.
    do 2 f_equal. unfold final_text. f_equal. f_equal.
    rewrite !text_before_utm_eq.
    rewrite (map_unfancy_fixed (map unfancy s)); [done|].
    apply Forall_forall. intros c (d & -> & _)%list_elem_of_fmap.
    apply unfancy_not_fancy.
  - rewrite clean_eq. eexists. split; [f_equal|split]; by vm_compute.
Qed.

(** C4: on every text the pattern's [sub] deletes exactly the fragments the
    specification describes (from [?utm_] followed by a non-whitespace
    character up to the next whitespace or the end), [findall] returns as
    many matches as there are such fragments, each of them [?utm_] followed
    by one or more non-whitespace characters; [utm_removed_count] is that
    number on the text left by the first whitespace collapse, and the
    returned text is that text with the fragments deleted and the whitespace
    collapsed again; on the worked input the fragment goes and the count
    is 1. *)
Theorem utm_fragments_counted_then_removed :
  (∀ t : list N,
     re_sub UTM_PATTERN [] t = utm_removed false t
     ∧ length (re_findall UTM_PATTERN t) = utm_count false t
     ∧ Forall (λ m, ∃ w, m = lit "?utm_" ++ w ∧ w ≠ []
                         ∧ Forall (λ c, isspace c = false) w)
              (re_findall UTM_PATTERN t))
  ∧ (∀ (s : list N) (m : bool),
       ∃ d, clean s m
            = Ok (collapse_spaces (utm_removed false (text_before_utm s m)),
                  PyDict d)
            ∧ d !! "utm_removed_count"
              = Some (Z.of_nat (utm_count false (text_before_utm s m))))
  ∧ (∃ d, clean (lit "Check this: https://example.com/page?utm_source=x&utm_medium=y more text")
                false
          = Ok (lit "Check this: https://example.com/page more text", PyDict d)
          ∧ d !! "utm_removed_count" = Some 1%Z).
Proof.
  split; [|split].
  - intros t. split; [apply re_sub_utm|]. split; [apply re_findall_utm|].
    rewrite (re_findall_run _ nonspace utm_starts match_here_utm utm_starts_head).
    apply run_utm_matches.
  - intros s m. exists (final_summary s m ∅).
    rewrite clean_eq, final_text_eq. split; [done|apply summary_utm_count].
  - rewrite clean_eq. eexists. split; [f_equal|]; by vm_compute.
Qed.

(** C5: the summary of [clean] has the key [lang_punct_replaced] exactly in
    language mode; its value is then the number of characters of the input
    that are sources of the punctuation table (zero when there is none), each
    of which the loop replaces by its target; with language mode off the key
    is absent. *)
Theorem lang_punct_replaced_iff_language_mode (s : list N) (m : bool) :
  ∃ t d, clean s m = Ok (t, PyDict d)
         ∧ (is_Some (d !! "lang_punct_replaced") ↔ m = true)
         ∧ d !! "lang_punct_replaced"
           = (if m then Some (Z.of_nat (count_if (is_key LANG_PUNCT_MAP) s))
              else None)
         ∧ replace_lang_punct (replace_quotes s)
           = (flat_map (table_subst LANG_PUNCT_MAP) (replace_quotes s),
              count_if (is_key LANG_PUNCT_MAP) s)
         ∧ ∀ c, is_key LANG_PUNCT_MAP c = true
                ↔ c ∈ [191; 161; 171; 187; 8212; 8211; 8230].
Proof.
  exists (final_text s m), (final_summary s m ∅).
  split; [apply clean_eq|]. rewrite summary_lang_punct.
  split; [|split; [done|split]].
  - destruct m; (split; [|done]); [done|].
    intros [? ?]. done.
  - rewrite replace_lang_punct_spec, replace_quotes_map.
    by rewrite count_keys_unfancy.
  - intros c. unfold LANG_PUNCT_MAP, is_key. cbn [existsb fst].
    rewrite !key_test, !orb_true_iff, !N.eqb_eq, !elem_of_cons, elem_of_nil.
    intuition discriminate.
Qed.

(** C6: cleaning a cleaned text with the same language mode gives it back:
    one application reaches a fixed point.  The counters of the second pass
    are all zero. *)
Theorem clean_idempotent (s : list N) (m : bool) :
  ∃ t d1 d2, clean s m = Ok (t, PyDict d1)
             ∧ clean t m = Ok (t, PyDict d2)
             ∧ d2 !! "fancy_double_before" = Some 0%Z
             ∧ d2 !! "fancy_single_before" = Some 0%Z
             ∧ d2 !! "utm_removed_count" = Some 0%Z
             ∧ d2 !! "lang_punct_replaced" = if m then Some 0%Z else None.
Proof.
  exists (final_text s m), (final_summary s m ∅),
         (final_summary (final_text s m) m ∅).
  split; [apply clean_eq|].
  split; [by rewrite clean_eq, final_text_idem|].
  pose proof (final_text_no_fancy s m) as Hq.
  rewrite summary_fancy_double, summary_fancy_single, summary_utm_count,
    summary_lang_punct.
  rewrite !(count_occ_none _ [8220; 8221; 8216; 8217]) by (done || set_solver).
  rewrite text_before_utm_fixed;
    [|apply final_text_normal|done|intros ->; apply final_text_no_key].
  rewrite utm_free_count_zero by apply final_text_utm_free.
  repeat split. destruct m; [|done].
  by rewrite count_if_none by apply final_text_no_key.
Qed.

(** C7, as the code has it: every value of the summary is a non-negative
    integer; the four counters ([fancy_double_before], [fancy_single_before],
    [lang_punct_replaced] when present, [utm_removed_count]) are at most the
    length of the input; [final_length] is at most the length of the input
    with language mode off, and at most three times that length in language
    mode. *)
Theorem summary_values_bounded (s : list N) (m : bool) :
  ∃ t d, clean s m = Ok (t, PyDict d)
         ∧ ∀ (k : string) (v : Z),
             d !! k = Some v →
             (0 ≤ v)%Z
             ∧ (k ≠ "final_length" → (v ≤ Z.of_nat (length s))%Z)
             ∧ (k = "final_length" →
                (v ≤ (if m then 3 else 1) * Z.of_nat (length s))%Z).
Proof.
  exists (final_text s m), (final_summary s m ∅).
  split; [apply clean_eq|]. intros k v Hk.
  destruct (summary_keys s m k v Hk) as [E|[E|[[E Em]|[E|E]]]]; subst.
  - rewrite summary_fancy_double in Hk. injection Hk as <-.
    pose proof (count_two_le s 8220 8221 ltac:(done)).
    repeat split; try done; lia.
  - rewrite summary_fancy_single in Hk. injection Hk as <-.
    pose proof (count_two_le s 8216 8217 ltac:(done)).
    repeat split; try done; lia.
  - rewrite summary_lang_punct in Hk. injection Hk as <-.
    pose proof (count_if_le (is_key LANG_PUNCT_MAP) s).
    repeat split; try done; lia.
  - rewrite summary_utm_count in Hk. injection Hk as <-.
    pose proof (utm_count_bound _ (text_before_utm s m) false (Nat.le_refl _)).
    pose proof (text_before_utm_length s m).
    repeat split; try done; destruct m; lia.
  - rewrite summary_final_length in Hk. injection Hk as <-.
    pose proof (final_text_length s m).
    repeat split; try done; destruct m; lia.
Qed.

(** C7 as stated fails: in language mode the one-character input made of
    the ellipsis U+2026 is cleaned to three full stops, and [final_length]
    is 3, above the length 1 of the input. *)
Lemma final_length_exceeds_input_length :
  ∃ d, clean [8230] true = Ok ([46; 46; 46], PyDict d)
       ∧ d !! "final_length" = Some 3%Z
       ∧ ¬ (3 ≤ Z.of_nat (length [8230]))%Z.
Proof.
  rewrite clean_eq. eexists. split; [f_equal|split]; [by vm_compute..|].
  simpl. lia.
Qed.

(** C8: two calls of [clean_text] with identical arguments return the same
    text and the same summary, whatever the module's code did to the module
    namespace before the first call and between the two (calls of
    [clean_text] with any arguments, the assignment to [COLOR_AVAILABLE] in
    [main]): a call leaves every module-level name as it found it, it reads
    only five of them, and nothing assigns those.  The common result is that
    of [clean_text] on the constants of the source. *)
Theorem clean_text_deterministic
    (pyperclip colorama : bool) (before between : list action)
    (s : list N) (m : bool) (o : pyobj) :
  (∀ g, (clean_text_in s m o g).2 = g)
  ∧ (clean_text_in s m o (run_actions before (imported pyperclip colorama))).1
    = (clean_text_in s m o
         (run_actions between
            (clean_text_in s m o
               (run_actions before (imported pyperclip colorama))).2)).1
  ∧ ∃ t d,
      (clean_text_in s m o (run_actions before (imported pyperclip colorama))).1
      = Ok (t, PyDict d)
      ∧ clean_text s m o = Ok (t, PyDict d).
Proof.
  pose proof (run_actions_intact before _ (imported_intact pyperclip colorama))
    as H0.
  split; [intros g; apply clean_text_in_frame|]. split.
  - rewrite clean_text_in_frame.
    rewrite !clean_text_in_intact; [done| |done].
    by apply run_actions_intact.
  - rewrite clean_text_in_intact by done. rewrite clean_text_eq. eauto.
Qed.

(** C9: the cleaned text holds no tab, carriage return or line feed, no two
    spaces in a row (no two whitespace characters in a row), starts and ends
    with no whitespace character, and its only whitespace character is the
    ASCII space. *)
Theorem cleaned_text_whitespace (s : list N) (m : bool) :
  ∃ t d, clean s m = Ok (t, PyDict d)
         ∧ (9 ∉ t) ∧ (13 ∉ t) ∧ (10 ∉ t)
         ∧ (∀ i, ¬ (t !! i = Some 32 ∧ t !! S i = Some 32))
         ∧ (∀ i c c', t !! i = Some c → t !! S i = Some c' →
                      ¬ (isspace c = true ∧ isspace c' = true))
         ∧ (∀ c, head t = Some c → isspace c = false)
         ∧ (∀ c, last t = Some c → isspace c = false)
         ∧ (∀ c, c ∈ t → isspace c = true → c = 32).
Proof.
  exists (final_text s m), (final_summary s m ∅).
  split; [apply clean_eq|].
  destruct (final_text_normal s m) as (Ht & Hs & Hl).
  rewrite Forall_forall in Ht.
  assert (∀ i c c', final_text s m !! i = Some c →
                    final_text s m !! S i = Some c' →
                    ¬ (isspace c = true ∧ isspace c' = true)) as Hadj.
  { intros i c c' Hi HSi [Hc Hc'].
    by apply (single_spaced_lookup true (final_text s m) i c c'). }
  repeat split.
  - intros Hin. by specialize (Ht _ Hin eq_refl).
  - intros Hin. by specialize (Ht _ Hin eq_refl).
  - intros Hin. by specialize (Ht _ Hin eq_refl).
  - intros i [Hi HSi]. by apply (Hadj i 32 32).
  - done.
  - intros c. by apply single_spaced_head.
  - done.
  - done.
Qed.

(** C10: with language mode off the cleaned text is never longer than the
    input. *)
Theorem clean_plain_no_longer (s : list N) :
  ∃ t d, clean s false = Ok (t, PyDict d) ∧ (length t ≤ length s)%nat.
Proof.
  exists (final_text s false), (final_summary s false ∅).
  split; [apply clean_eq|].
  pose proof (final_text_length s false) as H. simpl in H. lia.
Qed.

(** * Further properties of the pipeline *)

(** ** The line-ending step is absorbed by the whitespace collapse *)

Lemma collapse_crlf (n : nat) :
  ∀ (s : list N) (b : bool),
    (length s ≤ n)%nat →
    collapse b (replace_from [13; 10] [10] s 0) = collapse b s.
Proof.
  induction n as [|n IH]; intros s b Hn.
  { destruct s; [done|simpl in Hn; lia]. }
  destruct s as [|c s]; [done|]. simpl in Hn.
  cbn [replace_from startswith].
  destruct (N.eqb_spec 13 c) as [<-|Hc].
  - destruct s as [|c' s].
    + done.
    + destruct (N.eqb_spec 10 c') as [<-|Hc'].
      * cbn [andb app length Nat.sub replace_from collapse].
        change (isspace 13) with true. change (isspace 10) with true.
        cbn iota. rewrite IH by (simpl in Hn; lia). by destruct b.
      * cbn [andb collapse]. change (isspace 13) with true. cbn iota.
        rewrite IH by (simpl in *; lia). done.
  - cbn [andb collapse]. rewrite !IH by lia. done.
Qed.

Lemma collapse_cr (s : list N) (b : bool) :
  collapse b (replace_from [13] [10] s 0) = collapse b s.
Proof.
  revert b. induction s as [|c s IH]; intros b; [done|].
  cbn [replace_from startswith].
  destruct (N.eqb_spec 13 c) as [<-|Hc].
  - cbn [andb app length Nat.sub collapse].
    change (isspace 13) with true. change (isspace 10) with true.
    cbn iota. by rewrite IH.
  - cbn [andb collapse]. by rewrite !IH.
Qed.

Lemma collapse_normalize_newlines (s : list N) (b : bool) :
  collapse b (normalize_newlines s) = collapse b s.
Proof.
  unfold normalize_newlines, str_replace.
  rewrite collapse_cr. by apply (collapse_crlf (length s)).
Qed.

(** ** Whitespace runs *)

Lemma collapse_spaces_run (b : bool) (w r : list N) :
  w ≠ [] → Forall (λ c, isspace c = true) w →
  collapse b (w ++ r) = (if b then [] else [32]) ++ collapse true r.
Proof.
  intros Hne Hw. revert b.
  induction Hw as [|c w Hc Hw IH]; intros b; [done|].
  cbn [app collapse]. rewrite Hc.
  destruct w as [|c' w].
  - by destruct b.
  - rewrite IH by done. by destruct b.
Qed.

Lemma collapse_app_run (b : bool) (a w r : list N) :
  w ≠ [] → Forall (λ c, isspace c = true) w →
  collapse b (a ++ w ++ r) = collapse b (a ++ [32] ++ r).
Proof.
  intros Hne Hw. revert b.
  induction a as [|c a IH]; intros b.
  - cbn [app]. rewrite (collapse_spaces_run b w r) by done.
    change (32 :: r) with ([32] ++ r).
    by rewrite (collapse_spaces_run b [32] r) by (done || by repeat constructor).
  - cbn [app collapse]. rewrite !IH. done.
Qed.

Lemma collapse_all_space (b : bool) (s : list N) :
  Forall (λ c, isspace c = true) s →
  collapse b s = [] ∨ collapse b s = [32].
Proof.
  destruct s as [|c s]; [by left|]. intros Hs.
  rewrite <- (app_nil_r (c :: s)), collapse_spaces_run by done.
  destruct b; [by left|by right].
Qed.

Lemma collapse_spaces_all_space (s : list N) :
  Forall (λ c, isspace c = true) s → collapse_spaces s = [].
Proof.
  intros Hs. rewrite collapse_spaces_eq.
  by destruct (collapse_all_space false s Hs) as [-> | ->].
Qed.

(** ** Characters that the substitutions leave alone *)

Lemma unfancy_space (c : N) : isspace (unfancy c) = isspace c.
Proof.
  unfold unfancy.
  destruct (N.eqb_spec c 8220) as [->|?]; [done|].
  destruct (N.eqb_spec c 8221) as [->|?]; [done|].
  destruct (N.eqb_spec c 8216) as [->|?]; [done|].
  destruct (N.eqb_spec c 8217) as [->|?]; done.
Qed.

Lemma unfancy_of_space (c : N) : isspace c = true → unfancy c = c.
Proof.
  intros Hc. unfold unfancy.
  destruct (N.eqb_spec c 8220) as [->|?]; [done|].
  destruct (N.eqb_spec c 8221) as [->|?]; [done|].
  destruct (N.eqb_spec c 8216) as [->|?]; [done|].
  destruct (N.eqb_spec c 8217) as [->|?]; done.
Qed.

Lemma key_not_space (c : N) :
  isspace c = true → is_key LANG_PUNCT_MAP c = false.
Proof.
  intros Hc. unfold LANG_PUNCT_MAP, is_key. cbn [existsb fst].
  rewrite !key_test.
  destruct (N.eqb_spec c 191) as [->|?]; [done|].
  destruct (N.eqb_spec c 161) as [->|?]; [done|].
  destruct (N.eqb_spec c 171) as [->|?]; [done|].
  destruct (N.eqb_spec c 187) as [->|?]; [done|].
  destruct (N.eqb_spec c 8212) as [->|?]; [done|].
  destruct (N.eqb_spec c 8211) as [->|?]; [done|].
  destruct (N.eqb_spec c 8230) as [->|?]; done.
Qed.

Lemma table_subst_space (c : N) :
  isspace c = true → table_subst LANG_PUNCT_MAP c = [c].
Proof. intros Hc. by apply table_subst_nonkey, key_not_space. Qed.

Lemma table_subst_visible (c : N) :
  isspace c = false →
  Forall (λ d, isspace d = false) (table_subst LANG_PUNCT_MAP c).
Proof.
  intros Hc. unfold LANG_PUNCT_MAP. cbn [table_subst]. rewrite !key_test.
  repeat (destruct (_ =? _); [by repeat constructor|]). by constructor.
Qed.

Lemma substituted_app (a b : list N) (m : bool) :
  substituted (a ++ b) m = substituted a m ++ substituted b m.
Proof.
  unfold substituted. destruct m; rewrite map_app; [|done].
  apply flat_map_app.
Qed.

Lemma substituted_space (w : list N) (m : bool) :
  Forall (λ c, isspace c = true) w → substituted w m = w.
Proof.
  intros Hw. unfold substituted.
  assert (map unfancy w = w) as ->.
  { induction Hw as [|c w Hc Hw IH]; simpl; [done|].
    by rewrite unfancy_of_space, IH. }
  destruct m; [|done].
  induction Hw as [|c w Hc Hw IH]; cbn [flat_map]; [done|].
  by rewrite table_subst_space, IH.
Qed.

Lemma text_before_utm_substituted (s : list N) (m : bool) :
  text_before_utm s m = collapse_spaces (substituted s m).
Proof.
  rewrite text_before_utm_eq. fold (substituted s m).
  by rewrite !collapse_spaces_eq, collapse_normalize_newlines.
Qed.

(** ** The non-whitespace characters through the pipeline *)

Lemma visible_cons (c : N) (s : list N) :
  visible (c :: s) = if isspace c then visible s else c :: visible s.
Proof.
  unfold visible. rewrite filter_cons.
  destruct (isspace c); by case_decide.
Qed.

Lemma visible_app (a b : list N) : visible (a ++ b) = visible a ++ visible b.
Proof. apply filter_app. Qed.

Lemma visible_all_space (w : list N) :
  Forall (λ c, isspace c = true) w → visible w = [].
Proof.
  induction 1 as [|c w Hc Hw IH]; [done|]. by rewrite visible_cons, Hc.
Qed.

Lemma visible_collapse (b : bool) (s : list N) :
  visible (collapse b s) = visible s.
Proof.
  revert b. induction s as [|c s IH]; intros b; [done|].
  cbn [collapse]. rewrite (visible_cons c s).
  destruct (isspace c) eqn:Hc; [destruct b|].
  - apply IH.
  - rewrite visible_cons. change (isspace 32) with true. apply IH.
  - by rewrite visible_cons, Hc, IH.
Qed.

Lemma visible_lstrip (s : list N) : visible (lstrip s) = visible s.
Proof.
  unfold lstrip. induction s as [|c s IH]; [done|].
  cbn [drop_while]. rewrite (visible_cons c s).
  destruct (isspace c) eqn:Hc; [done|]. by rewrite visible_cons, Hc.
Qed.

Lemma take_while_Forall (f : N → bool) (s : list N) :
  Forall (λ c, f c = true) (take_while f s).
Proof.
  induction s as [|c s IH]; simpl; [constructor|].
  destruct (f c) eqn:Hc; by constructor.
Qed.

Lemma rstrip_split (s : list N) :
  ∃ w, s = rstrip s ++ w ∧ Forall (λ c, isspace c = true) w.
Proof.
  exists (reverse (take_while isspace (reverse s))). split.
  - unfold rstrip.
    by rewrite <- reverse_app, take_drop_while, reverse_involutive.
  - apply Forall_reverse, take_while_Forall.
Qed.

Lemma visible_rstrip (s : list N) : visible (rstrip s) = visible s.
Proof.
  destruct (rstrip_split s) as (w & E & Hw).
  rewrite E at 2. by rewrite visible_app, (visible_all_space w), app_nil_r.
Qed.

Lemma visible_collapse_spaces (s : list N) :
  visible (collapse_spaces s) = visible s.
Proof.
  by rewrite collapse_spaces_eq, visible_rstrip, visible_lstrip, visible_collapse.
Qed.

Lemma visible_utm_removed (b : bool) (s : list N) :
  sublist (visible (utm_removed b s)) (visible s).
Proof.
  revert b. induction s as [|c s IH]; intros b; [done|].
  cbn [utm_removed]. rewrite (visible_cons c s).
  destruct (isspace c) eqn:Hc.
  { rewrite visible_cons, Hc. apply IH. }
  destruct b; [apply sublist_cons, IH|].
  destruct (utm_starts (c :: s)); [apply sublist_cons, IH|].
  rewrite visible_cons, Hc. apply sublist_skip, IH.
Qed.

Lemma utm_count_zero_removed (s : list N) :
  utm_count false s = O → utm_removed false s = s.
Proof.
  induction s as [|c s IH]; [done|]. cbn [utm_count utm_removed].
  destruct (isspace c); [intros H; by rewrite IH|].
  destruct (utm_starts (c :: s)); [done|]. intros H. by rewrite IH.
Qed.

Lemma visible_map_unfancy (s : list N) :
  visible (map unfancy s) = map unfancy (visible s).
Proof.
  induction s as [|c s IH]; [done|]. cbn [map].
  rewrite !visible_cons, unfancy_space. destruct (isspace c); [done|].
  cbn [map]. by rewrite IH.
Qed.

Lemma visible_flat_map_subst (s : list N) :
  visible (flat_map (table_subst LANG_PUNCT_MAP) s)
  = flat_map (table_subst LANG_PUNCT_MAP) (visible s).
Proof.
  induction s as [|c s IH]; [done|]. cbn [flat_map].
  rewrite visible_app, visible_cons, IH. destruct (isspace c) eqn:Hc.
  - by rewrite table_subst_space, visible_cons, Hc.
  - cbn [flat_map]. f_equal. unfold visible.
    pose proof (table_subst_visible c Hc) as H.
    induction H as [|d l Hd Hl IHl]; [done|].
    by rewrite filter_cons_True, IHl.
Qed.

Lemma visible_substituted (s : list N) (m : bool) :
  visible (substituted s m) = substituted (visible s) m.
Proof.
  unfold substituted. destruct m.
  - by rewrite visible_flat_map_subst, visible_map_unfancy.
  - apply visible_map_unfancy.
Qed.

(** ** Summaries of inputs that differ in whitespace only *)

Lemma count_occ_space (w : list N) (a : N) :
  isspace a = false → Forall (λ c, isspace c = true) w →
  count_occ N.eq_dec w a = O.
Proof.
  intros Ha Hw. apply count_occ_absent. intros Hin.
  rewrite Forall_forall in Hw. specialize (Hw _ Hin). congruence.
Qed.

Lemma count_keys_space (w : list N) :
  Forall (λ c, isspace c = true) w → count_if (is_key LANG_PUNCT_MAP) w = O.
Proof.
  intros Hw. apply count_if_none.
  eapply Forall_impl; [done|]. apply key_not_space.
Qed.

Lemma final_text_substituted (s : list N) (m : bool) :
  final_text s m
  = collapse_spaces (utm_removed false (collapse_spaces (substituted s m))).
Proof. by rewrite final_text_eq, text_before_utm_substituted. Qed.

(** The summary of a fresh call, entry by entry. *)
Lemma final_summary_ext (s1 s2 : list N) (m : bool) :
  (∀ a, isspace a = false →
        count_occ N.eq_dec s1 a = count_occ N.eq_dec s2 a) →
  count_if (is_key LANG_PUNCT_MAP) s1 = count_if (is_key LANG_PUNCT_MAP) s2 →
  text_before_utm s1 m = text_before_utm s2 m →
  final_summary s1 m ∅ = final_summary s2 m ∅.
Proof.
  intros Hq Hk Ht. apply map_eq. intros k.
  assert (final_text s1 m = final_text s2 m) as Hf
    by by rewrite !final_text_eq, Ht.
  destruct (decide (k = "final_length")) as [->|?].
  { by rewrite !summary_final_length, Hf. }
  destruct (decide (k = "utm_removed_count")) as [->|?].
  { by rewrite !summary_utm_count, Ht. }
  destruct (decide (k = "lang_punct_replaced")) as [->|?].
  { by rewrite !summary_lang_punct, Hk. }
  destruct (decide (k = "fancy_single_before")) as [->|?].
  { by rewrite !summary_fancy_single, !Hq. }
  destruct (decide (k = "fancy_double_before")) as [->|?].
  { by rewrite !summary_fancy_double, !Hq. }
  unfold final_summary.
  destruct m; by rewrite !lookup_insert_ne by done.
Qed.

(** ** Texts without a question mark *)

Lemma no_question_mark_utm_free (t : list N) :
  (∀ c, c ∈ t → c ≠ 63) → utm_free t = true.
Proof.
  induction t as [|c t IH]; [done|]. intros H. cbn [utm_free].
  rewrite IH, andb_true_r by (intros d Hd; apply H; by right).
  apply negb_true_iff.
  destruct (utm_starts (c :: t)) eqn:Hst; [|done].
  apply utm_starts_spec in Hst as (c5 & r & E & _).
  simpl in E. injection E as -> _. exfalso. apply (H 63); [by left|done].
Qed.

Lemma substituted_no_question_mark (s : list N) (m : bool) :
  63 ∉ s → (m = true → 191 ∉ s) →
  Forall (λ c, c ≠ 63) (substituted s m).
Proof.
  intros H63 H191. unfold substituted.
  assert (Forall (λ c, c ≠ 63 ∧ (m = true → c ≠ 191)) (map unfancy s)) as H.
  { apply Forall_forall. intros c (d & -> & Hd)%list_elem_of_fmap.
    assert (d ≠ 63) by (intros ->; done).
    assert (m = true → d ≠ 191) by (intros Hm ->; by apply H191).
    unfold unfancy.
    destruct (N.eqb_spec d 8220) as [->|?]; [done|].
    destruct (N.eqb_spec d 8221) as [->|?]; [done|].
    destruct (N.eqb_spec d 8216) as [->|?]; [done|].
    destruct (N.eqb_spec d 8217) as [->|?]; done. }
  destruct m.
  - induction H as [|c l [Hc Hc'] Hl IH]; cbn [flat_map]; [constructor|].
    apply Forall_app. split; [|done].
    specialize (Hc' eq_refl). unfold LANG_PUNCT_MAP. cbn [table_subst].
    rewrite !key_test.
    destruct (N.eqb_spec c 191); [done|].
    repeat (destruct (_ =? _); [by repeat constructor|]). by constructor.
  - eapply Forall_impl; [done|]. by intros c [Hc _].
Qed.

(** ** Exchanging a whitespace run for a space *)

Lemma clean_whitespace_run (a w r : list N) (m : bool) :
  w ≠ [] → Forall (λ c, isspace c = true) w →
  clean (a ++ w ++ r) m = clean (a ++ [32] ++ r) m.
Proof.
  intros Hne Hw. rewrite !clean_eq.
  assert (Forall (λ c, isspace c = true) [32]) as H32 by by repeat constructor.
  assert (text_before_utm (a ++ w ++ r) m = text_before_utm (a ++ [32] ++ r) m)
    as Ht.
  { rewrite !text_before_utm_substituted, !substituted_app.
    rewrite (substituted_space w), (substituted_space [32]) by done.
    rewrite !collapse_spaces_eq. by rewrite (collapse_app_run _ _ w). }
  do 2 f_equal.
  - by rewrite !final_text_eq, Ht.
  - f_equal. apply final_summary_ext; [| |done].
    + intros c Hc. rewrite !count_occ_app.
      by rewrite (count_occ_space w), (count_occ_space [32]).
    + rewrite !count_if_app.
      by rewrite (count_keys_space w), (count_keys_space [32]).
Qed.


(** * The command-line layer *)

(** ** Printing *)

Lemma emit_nil (w : world) : emit [] w = w.
Proof. destruct w. unfold emit. simpl. by rewrite app_nil_r. Qed.

Lemma emit_emit (a b : list (list N)) (w : world) :
  emit b (emit a w) = emit (a ++ b) w.
Proof. unfold emit. simpl. by rewrite app_assoc. Qed.

Lemma print_emit (msg : list N) (w : world) : print msg w = emit [msg] w.
Proof. done. Qed.

Lemma set_stdin_emit (buf : list N) (msgs : list (list N)) (w : world) :
  set_stdin buf (emit msgs w) = emit msgs (set_stdin buf w).
Proof. done. Qed.

Lemma color_emit (msgs : list (list N)) (w : world) :
  COLOR_AVAILABLE (emit msgs w) = COLOR_AVAILABLE w.
Proof. done. Qed.

Lemma color_set_stdin (buf : list N) (w : world) :
  COLOR_AVAILABLE (set_stdin buf w) = COLOR_AVAILABLE w.
Proof. done. Qed.

Lemma color_copy (text : list N) (w : world) :
  COLOR_AVAILABLE (pyperclip_copy text w) = COLOR_AVAILABLE w.
Proof. done. Qed.

Lemma printc_emit (cs : colors) (msg color : list N) (w : world) :
  printc cs msg color w = emit [printed cs (COLOR_AVAILABLE w) msg color] w.
Proof.
  unfold printc, printed.
  by destruct (COLOR_AVAILABLE w && truthy color).
Qed.

Lemma show_summary_info_emit (cs : colors) (d : gmap string Z)
    (raw cleaned : list N) (w : world) :
  show_summary_info cs d raw cleaned w
  = emit (summary_report cs (COLOR_AVAILABLE w) d raw cleaned) w.
Proof.
  unfold show_summary_info, summary_report.
  destruct (bool_decide (is_Some (d !! "lang_punct_replaced")));
    rewrite !printc_emit, !emit_emit; done.
Qed.

(** ** Reading standard input *)

Lemma readline_length (buf : list N) :
  (length (readline buf).1 + length (readline buf).2 = length buf)%nat.
Proof.
  induction buf as [|c buf IH]; [done|]. cbn [readline].
  destruct (c =? 10); [done|].
  destruct (readline buf) as [line rest]. simpl in *. lia.
Qed.

Lemma readline_truthy (c : N) (buf : list N) :
  truthy (readline (c :: buf)).1 = true.
Proof.
  cbn [readline]. destruct (c =? 10); [done|].
  by destruct (readline buf).
Qed.

Lemma lines_of_readline (c : N) (buf : list N) :
  lines_of (c :: buf)
  = (readline (c :: buf)).1 :: lines_of (readline (c :: buf)).2.
Proof.
  revert c. induction buf as [|c' buf IH]; intros c.
  - cbn. by destruct (c =? 10).
  - cbn [lines_of readline]. destruct (c =? 10); [done|].
    specialize (IH c'). cbn [lines_of readline] in IH. rewrite IH.
    by destruct (c' =? 10); [|destruct (readline buf)].
Qed.

Lemma read_loop_lines (fuel : nat) :
  ∀ (buf : list N) (acc : list (list N)),
    (length buf < fuel)%nat →
    (read_loop fuel buf acc).1 = take_lines (lines_of buf) acc.
Proof.
  induction fuel as [|fuel IH]; intros buf acc Hf; [lia|].
  destruct buf as [|c buf]; [done|].
  rewrite lines_of_readline. cbn [read_loop take_lines].
  pose proof (readline_length (c :: buf)) as Hl.
  pose proof (readline_truthy c buf) as Ht.
  destruct (readline (c :: buf)) as [line rest]. cbn [fst snd] in *.
  rewrite Ht. cbn [negb].
  destruct (bool_decide (strip line = [])); [done|].
  apply IH. destruct line; [done|]. simpl in *. lia.
Qed.

Lemma read_loop_any_fuel (f1 : nat) :
  ∀ (f2 : nat) (buf : list N) (acc : list (list N)),
    (length buf < f1)%nat → (length buf < f2)%nat →
    read_loop f1 buf acc = read_loop f2 buf acc.
Proof.
  induction f1 as [|f1 IH]; intros f2 buf acc H1 H2; [lia|].
  destruct f2 as [|f2]; [lia|].
  destruct buf as [|c buf]; [done|].
  cbn [read_loop].
  pose proof (readline_length (c :: buf)) as Hl.
  pose proof (readline_truthy c buf) as Ht.
  destruct (readline (c :: buf)) as [line rest]. cbn [fst snd] in *.
  rewrite Ht. cbn [negb].
  destruct (bool_decide (strip line = [])); [done|].
  assert (length rest < length (c :: buf))%nat as Hr
    by (destruct line; [done|]; simpl in *; lia).
  apply IH; lia.
Qed.

(** The loop does not depend on the turns it is allowed beyond the length
    of the input. *)
Lemma read_loop_fuel (fuel : nat) (buf : list N) (acc : list (list N)) :
  (length buf < fuel)%nat →
  read_loop fuel buf acc = read_loop (S (length buf)) buf acc.
Proof. intros H. apply read_loop_any_fuel; lia. Qed.

Lemma lines_of_nil (buf : list N) : lines_of buf = [] → buf = [].
Proof.
  destruct buf as [|c buf]; [done|]. cbn [lines_of].
  destruct (c =? 10); [done|]. by destruct (lines_of buf).
Qed.

Lemma lines_of_app_newline (a b : list N) :
  lines_of (a ++ 10 :: b) = lines_of (a ++ [10]) ++ lines_of b.
Proof.
  induction a as [|c a IH]; [done|]. cbn [app lines_of].
  destruct (c =? 10); [by rewrite IH|]. rewrite IH.
  destruct (lines_of (a ++ [10])) as [|l ls] eqn:E; [|done].
  apply lines_of_nil in E. by destruct a.
Qed.

(** *** Blank lines *)

Lemma lstrip_all_space (s : list N) :
  Forall (λ c, isspace c = true) s → lstrip s = [].
Proof.
  unfold lstrip. induction 1 as [|c s Hc Hs IH]; [done|].
  cbn [drop_while]. by rewrite Hc.
Qed.

Lemma visible_nil_all_space (s : list N) :
  visible s = [] → Forall (λ c, isspace c = true) s.
Proof.
  induction s as [|c s IH]; [constructor|]. rewrite visible_cons.
  destruct (isspace c) eqn:Hc; [|done]. intros H. constructor; auto.
Qed.

Lemma strip_nil_iff (s : list N) :
  strip s = [] ↔ Forall (λ c, isspace c = true) s.
Proof.
  split.
  - intros H. apply visible_nil_all_space.
    by rewrite <- visible_lstrip, <- visible_rstrip; fold (strip s); rewrite H.
  - intros H. unfold strip. by rewrite lstrip_all_space.
Qed.

Lemma lines_of_blank_head (w r : list N) :
  Forall (λ c, isspace c = true) w →
  ∃ l ls, lines_of (w ++ 10 :: r) = l :: ls ∧ strip l = [].
Proof.
  induction 1 as [|c w Hc Hw (l & ls & E & Hl)].
  - exists [10], (lines_of r). done.
  - cbn [app lines_of]. destruct (c =? 10).
    + exists [c], (lines_of (w ++ 10 :: r)). split; [done|].
      apply strip_nil_iff. by repeat constructor.
    + rewrite E. exists (c :: l), ls. split; [done|].
      apply strip_nil_iff. constructor; [done|]. by apply strip_nil_iff.
Qed.

Lemma take_lines_app_blank (p ls : list (list N)) (l : list N)
    (acc : list (list N)) :
  strip l = [] → take_lines (p ++ l :: ls) acc = take_lines p acc.
Proof.
  intros Hl. revert acc. induction p as [|x p IH]; intros acc.
  - cbn [app take_lines]. by rewrite bool_decide_eq_true_2.
  - cbn [app take_lines]. destruct (bool_decide (strip x = [])); [done|].
    apply IH.
Qed.

Lemma stdin_raw_ends_at_blank (pre blank r : list N) :
  Forall (λ c, isspace c = true) blank →
  stdin_raw (pre ++ [10] ++ blank ++ [10] ++ r)
  = join [10] (take_lines (lines_of (pre ++ [10])) []).
Proof.
  intros Hb. unfold stdin_raw. cbn [app]. rewrite lines_of_app_newline.
  destruct (lines_of_blank_head blank r Hb) as (l & ls & -> & Hl).
  by rewrite take_lines_app_blank.
Qed.

(** Every line collected holds a non-whitespace character. *)
Lemma rstrip_chars_newline_visible (line : list N) :
  visible (rstrip_chars line [10]) = visible line.
Proof.
  unfold rstrip_chars.
  set (f := λ c : N, bool_decide (c ∈ [10])).
  assert (∀ l, visible (drop_while f l) = visible l) as Hd.
  { induction l as [|c l IH]; [done|]. cbn [drop_while].
    destruct (f c) eqn:Hc; [|done]. rewrite visible_cons.
    unfold f in Hc. apply bool_decide_eq_true in Hc.
    apply list_elem_of_singleton in Hc as ->.
    change (isspace 10) with true. apply IH. }
  assert (∀ l, visible (reverse l) = reverse (visible l)) as Hr
    by (intros l; apply filter_reverse).
  by rewrite Hr, Hd, Hr, reverse_involutive.
Qed.

Lemma take_lines_acc (p acc : list (list N)) :
  take_lines p acc = acc ++ take_lines p [].
Proof.
  revert acc. induction p as [|x p IH]; intros acc.
  - by rewrite app_nil_r.
  - cbn [take_lines]. destruct (bool_decide (strip x = [])).
    + by rewrite app_nil_r.
    + rewrite IH, (IH ([] ++ _)). by rewrite app_assoc.
Qed.

Lemma take_lines_visible (p : list (list N)) :
  Forall (λ l, visible l ≠ []) (take_lines p []).
Proof.
  induction p as [|x p IH]; [constructor|]. cbn [take_lines].
  destruct (bool_decide (strip x = [])) eqn:Hx; [constructor|].
  rewrite take_lines_acc. cbn [app]. constructor; [|done].
  rewrite rstrip_chars_newline_visible. intros Hv.
  apply bool_decide_eq_false in Hx. apply Hx, strip_nil_iff.
  by apply visible_nil_all_space.
Qed.

Lemma stdin_raw_truthy (buf : list N) :
  truthy (stdin_raw buf)
  = negb (bool_decide (strip (readline buf).1 = [])).
Proof.
  unfold stdin_raw. destruct buf as [|c buf]; [done|].
  rewrite lines_of_readline. cbn [take_lines].
  destruct (bool_decide (strip (readline (c :: buf)).1 = [])) eqn:Hb; [done|].
  rewrite take_lines_acc. cbn [app join negb].
  assert (visible (rstrip_chars (readline (c :: buf)).1 [10]) ≠ []) as Hv.
  { rewrite rstrip_chars_newline_visible. intros Hv.
    apply bool_decide_eq_false in Hb. apply Hb, strip_nil_iff.
    by apply visible_nil_all_space. }
  by destruct (rstrip_chars (readline (c :: buf)).1 [10]).
Qed.

(** ** The two modes in closed form *)

Lemma process_stdin_eq (cs : colors) (l sh : bool) (w : world) :
  process_stdin cs l sh w
  = Ok (let on := COLOR_AVAILABLE w in
        let rest := (read_loop (S (length (stdin w))) (stdin w) []).2 in
        let raw := stdin_raw (stdin w) in
        let prompt :=
          printed cs on
            (lit "Paste your text. Press Enter twice on an empty line (or Ctrl+D/Ctrl+Z) to end:")
            (Fore_CYAN cs) in
        if negb (truthy raw)
        then emit [prompt;
                   printed cs on (lit "No input received.") (Fore_YELLOW cs)]
                  (set_stdin rest w)
        else emit ([prompt;
                    printed cs on ([10] ++ lit "--- Cleaned Output ---" ++ [10])
                      (Fore_CYAN cs);
                    final_text raw l]
                   ++ if sh
                      then summary_report cs on (final_summary raw l ∅) raw
                             (final_text raw l)
                      else [])
                  (set_stdin rest w)).
Proof.
  unfold process_stdin. rewrite printc_emit.
  change (stdin (emit _ w)) with (stdin w).
  pose proof (read_loop_lines (S (length (stdin w))) (stdin w) []
                ltac:(lia)) as Hl.
  destruct (read_loop (S (length (stdin w))) (stdin w) []) as [lines rest].
  cbn [fst snd] in *. subst lines. fold (stdin_raw (stdin w)). cbn zeta.
  rewrite set_stdin_emit.
  destruct (negb (truthy (stdin_raw (stdin w)))).
  - by rewrite printc_emit, emit_emit, color_emit, color_set_stdin.
  - rewrite clean_text_eq. cbn [mbind result_bind dict_of].
    rewrite printc_emit, print_emit, !emit_emit, color_emit, color_set_stdin.
    destruct sh.
    + by rewrite show_summary_info_emit, emit_emit, color_emit, color_set_stdin.
    + by rewrite app_nil_r.
Qed.

(** ** Clipboard mode *)

(** When [paste] returns, the rest of the function in closed form. *)
Lemma process_clipboard_pasted (pp : pyperclip_module) (cs : colors)
    (l sh : bool) (w : world) (raw : list N) :
  PYPERCLIP_AVAILABLE w = true → paste pp w = Returned raw →
  process_clipboard pp cs l sh w
  = if negb (truthy raw)
    then Returned (emit [printed cs (COLOR_AVAILABLE w)
                           (lit "Clipboard is empty.") (Fore_YELLOW cs)] w)
    else w' ← copy pp (final_text raw l) w;
         Returned
           (emit (printed cs (COLOR_AVAILABLE w')
                    (lit "Clipboard cleaned and copied back to clipboard.")
                    (Fore_GREEN cs)
                  :: if sh
                     then summary_report cs (COLOR_AVAILABLE w')
                            (final_summary raw l ∅) raw (final_text raw l)
                     else [])
                 w').
Proof.
  intros Hp Hpaste. unfold process_clipboard. rewrite Hp, Hpaste.
  cbn [negb mbind outcome_bind].
  destruct (negb (truthy raw)); [by rewrite printc_emit|].
  rewrite clean_text_eq. cbn [of_result mbind outcome_bind dict_of].
  destruct (copy pp (final_text raw l) w) as [w'|e];
    cbn [mbind outcome_bind]; [|done].
  rewrite printc_emit. destruct sh; [|done].
  by rewrite show_summary_info_emit, emit_emit, color_emit.
Qed.

Lemma final_text_nil (l : bool) : final_text [] l = [].
Proof. by destruct l. Qed.

(** With a [paste] that returns what the clipboard holds and a [copy] that
    replaces it, the world after clipboard mode. *)
Lemma process_clipboard_working (pp : pyperclip_module) (cs : colors)
    (l sh : bool) (w : world) :
  paste pp w = Returned (clipboard w) →
  (∀ text, copy pp text w = Returned (pyperclip_copy text w)) →
  ∃ w', process_clipboard pp cs l sh w = Returned w'
        ∧ clipboard w'
          = (if PYPERCLIP_AVAILABLE w then final_text (clipboard w) l
             else clipboard w)
        ∧ stdin w' = stdin w
        ∧ COLOR_AVAILABLE w' = COLOR_AVAILABLE w
        ∧ PYPERCLIP_AVAILABLE w' = PYPERCLIP_AVAILABLE w.
Proof.
  intros Hpaste Hcopy. destruct (PYPERCLIP_AVAILABLE w) eqn:Hp.
  - rewrite (process_clipboard_pasted pp cs l sh w _ Hp Hpaste), Hcopy.
    cbn [mbind outcome_bind].
    destruct (clipboard w) as [|c r] eqn:Hc; cbn [truthy negb].
    + eexists. split; [done|].
      cbn [clipboard stdin COLOR_AVAILABLE PYPERCLIP_AVAILABLE emit].
      by rewrite Hc, final_text_nil.
    + eexists. split; [done|].
      by cbn [clipboard stdin COLOR_AVAILABLE PYPERCLIP_AVAILABLE emit
              pyperclip_copy].
  - unfold process_clipboard. rewrite Hp. cbn [negb]. rewrite printc_emit.
    eexists. split; [done|].
    by cbn [clipboard stdin COLOR_AVAILABLE PYPERCLIP_AVAILABLE emit].
Qed.

(** * Further behaviour of [clean_text] *)

(** X1: the line-ending step changes nothing that survives: the whitespace
    collapse that follows it treats CR, LF and CRLF alike. *)
Theorem newline_step_absorbed (t : list N) :
  collapse_spaces (normalize_newlines t) = collapse_spaces t.
Proof. by rewrite !collapse_spaces_eq, collapse_normalize_newlines. Qed.

(** X2: any non-empty run of whitespace in the input can be exchanged for a
    single space: the text and the whole summary stay the same. *)
Theorem whitespace_run_is_one_space (a w r : list N) (m : bool) :
  w ≠ [] → Forall (λ c, isspace c = true) w →
  clean (a ++ w ++ r) m = clean (a ++ [32] ++ r) m.
Proof. apply clean_whitespace_run. Qed.

Lemma whitespace_run_is_one_space_witness :
  [9; 13; 10] ≠ [] ∧ Forall (λ c, isspace c = true) [9; 13; 10]
  ∧ clean (lit "a" ++ [9; 13; 10] ++ lit "b") true
    = clean (lit "a" ++ [32] ++ lit "b") true.
Proof.
  split; [done|]. split; [by repeat constructor|].
  apply whitespace_run_is_one_space; [done|by repeat constructor].
Defined.

(** X3: an input made of whitespace only is cleaned like the empty string: the
    empty text, and the same summary. *)
Theorem whitespace_only_like_empty (s : list N) (m : bool) :
  Forall (λ c, isspace c = true) s → clean s m = clean [] m.
Proof.
  intros Hs. destruct s as [|c s]; [done|].
  transitivity (clean ([] ++ [32] ++ []) m); [|by destruct m; vm_compute].
  rewrite <- (clean_whitespace_run [] (c :: s) [] m) by done.
  cbn [app]. by rewrite app_nil_r.
Qed.

Lemma whitespace_only_like_empty_witness :
  Forall (λ c, isspace c = true) [32; 9; 10; 160]
  ∧ clean [32; 9; 10; 160] false = clean [] false.
Proof.
  split; [by repeat constructor|].
  apply whitespace_only_like_empty. by repeat constructor.
Defined.

(** X4: on an input with no source of the punctuation table, language mode
    returns the text of the plain mode, and the same summary with
    [lang_punct_replaced] added at zero. *)
Theorem language_mode_plain_without_punctuation (s : list N) :
  Forall (λ c, is_key LANG_PUNCT_MAP c = false) s →
  ∃ t d, clean s false = Ok (t, PyDict d)
         ∧ clean s true = Ok (t, PyDict (<["lang_punct_replaced" := 0%Z]> d)).
Proof.
  intros Hs. exists (final_text s false), (final_summary s false ∅).
  split; [apply clean_eq|]. rewrite clean_eq.
  assert (text_before_utm s true = text_before_utm s false) as Ht.
  { rewrite !text_before_utm_eq, flat_map_table_subst_fixed; [done|].
    apply Forall_forall. intros c (d & -> & Hd)%list_elem_of_fmap.
    rewrite is_key_unfancy. rewrite Forall_forall in Hs. by apply Hs. }
  assert (final_text s true = final_text s false) as Hf
    by by rewrite !final_text_eq, Ht.
  do 2 f_equal; [done|]. f_equal. apply map_eq. intros k.
  destruct (decide (k = "lang_punct_replaced")) as [->|?].
  { rewrite summary_lang_punct, lookup_insert_eq.
    by rewrite count_if_none. }
  rewrite lookup_insert_ne by done.
  destruct (decide (k = "final_length")) as [->|?].
  { by rewrite !summary_final_length, Hf. }
  destruct (decide (k = "utm_removed_count")) as [->|?].
  { by rewrite !summary_utm_count, Ht. }
  destruct (decide (k = "fancy_single_before")) as [->|?].
  { by rewrite !summary_fancy_single. }
  destruct (decide (k = "fancy_double_before")) as [->|?].
  { by rewrite !summary_fancy_double. }
  unfold final_summary. by rewrite !lookup_insert_ne by done.
Qed.

Lemma language_mode_plain_without_punctuation_witness :
  Forall (λ c, is_key LANG_PUNCT_MAP c = false) (lit "a  b?")
  ∧ ∃ t d, clean (lit "a  b?") false = Ok (t, PyDict d)
           ∧ clean (lit "a  b?") true
             = Ok (t, PyDict (<["lang_punct_replaced" := 0%Z]> d)).
Proof.
  assert (Forall (λ c, is_key LANG_PUNCT_MAP c = false) (lit "a  b?")) as H
    by by repeat constructor.
  split; [done|]. by apply language_mode_plain_without_punctuation.
Defined.

(** X5: cleaning never invents, reorders or alters a non-whitespace character
    beyond the quote and punctuation substitutions: the non-whitespace
    characters of the cleaned text are, in order, among those of the
    substituted input, and they are all of them when no UTM fragment was
    removed. *)
Theorem visible_characters_kept_in_order (s : list N) (m : bool) :
  ∃ t d, clean s m = Ok (t, PyDict d)
         ∧ sublist (visible t) (substituted (visible s) m)
         ∧ (d !! "utm_removed_count" = Some 0%Z →
            visible t = substituted (visible s) m).
Proof.
  exists (final_text s m), (final_summary s m ∅).
  split; [apply clean_eq|].
  rewrite summary_utm_count, final_text_eq, text_before_utm_substituted.
  rewrite visible_collapse_spaces, <- visible_substituted.
  rewrite <- (visible_collapse_spaces (substituted s m)).
  split; [apply visible_utm_removed|].
  intros [= H]. by rewrite utm_count_zero_removed by lia.
Qed.

(** X6: in language mode the text grows only through ellipses: it is at most
    two characters longer than the input for each U+2026 in it. *)
Theorem language_growth_is_ellipses (s : list N) :
  ∃ t d, clean s true = Ok (t, PyDict d)
         ∧ (length t ≤ length s + 2 * count_occ N.eq_dec s 8230%N)%nat.
Proof.
  exists (final_text s true), (final_summary s true ∅).
  split; [apply clean_eq|].
  rewrite final_text_substituted.
  etransitivity; [apply collapse_spaces_length|].
  etransitivity; [apply utm_removed_length|].
  etransitivity; [apply collapse_spaces_length|].
  unfold substituted. induction s as [|c s IH]; [done|].
  cbn [map flat_map length count_occ]. rewrite length_app.
  assert (length (table_subst LANG_PUNCT_MAP (unfancy c))
          = if N.eq_dec c 8230 then 3%nat else 1%nat) as ->.
  { unfold unfancy.
    destruct (N.eqb_spec c 8220) as [->|?]; [done|].
    destruct (N.eqb_spec c 8221) as [->|?]; [done|].
    destruct (N.eqb_spec c 8216) as [->|?]; [done|].
    destruct (N.eqb_spec c 8217) as [->|?]; [done|].
    cbn [orb]. unfold LANG_PUNCT_MAP. cbn [table_subst]. rewrite !key_test.
    destruct (N.eqb_spec c 191) as [->|?]; [done|].
    destruct (N.eqb_spec c 161) as [->|?]; [done|].
    destruct (N.eqb_spec c 171) as [->|?]; [done|].
    destruct (N.eqb_spec c 187) as [->|?]; [done|].
    destruct (N.eqb_spec c 8212) as [->|?]; [done|].
    destruct (N.eqb_spec c 8211) as [->|?]; [done|].
    destruct (N.eqb_spec c 8230) as [->|?]; [done|].
    by destruct (N.eq_dec c 8230). }
  destruct (N.eq_dec c 8230); lia.
Qed.

(** X7: a dictionary passed by the caller is updated in place, not reset: every
    key [clean_text] does not assign keeps its value, and with language mode
    off so does a [lang_punct_replaced] left by an earlier call.  The text
    returned is that of a call with a fresh dictionary. *)
Theorem caller_summary_updated_in_place
  (s : list N) (m : bool) (d : gmap string Z) :
  ∃ t d' d0, clean_text s m (PyDict d) = Ok (t, PyDict d')
             ∧ clean s m = Ok (t, PyDict d0)
             ∧ (∀ k, k ∉ summary_keys_written → d' !! k = d !! k)
             ∧ (∀ k, k ∈ summary_keys_written →
                     d' !! k = if decide (k = "lang_punct_replaced" ∧ m = false)
                               then d !! k else d0 !! k).
Proof.
  exists (final_text s m), (final_summary s m d), (final_summary s m ∅).
  split; [apply clean_text_eq|]. split; [apply clean_eq|]. split.
  - intros k Hk. unfold summary_keys_written in Hk.
    rewrite !not_elem_of_cons in Hk. destruct Hk as (?&?&?&?&?&_).
    unfold final_summary. destruct m; by rewrite !lookup_insert_ne by done.
  - intros k Hk. unfold summary_keys_written in Hk.
    rewrite !elem_of_cons, elem_of_nil in Hk.
    destruct Hk as [->|[->|[->|[->|[->|[]]]]]].
    + rewrite decide_False by (intros [? _]; done).
      by rewrite !summary_fancy_double.
    + rewrite decide_False by (intros [? _]; done).
      by rewrite !summary_fancy_single.
    + destruct m.
      * rewrite decide_False by (intros [_ ?]; done).
        unfold final_summary. repeat (rewrite lookup_insert_ne by done).
        by rewrite !lookup_insert_eq.
      * rewrite decide_True by done.
        unfold final_summary. by repeat (rewrite lookup_insert_ne by done).
    + rewrite decide_False by (intros [? _]; done).
      by rewrite !summary_utm_count.
    + rewrite decide_False by (intros [? _]; done).
      by rewrite !summary_final_length.
Qed.

(** X8: an input without a question mark (and, in language mode, without an
    inverted one) loses nothing but whitespace: no UTM fragment is counted,
    and the cleaned text is the substituted input with its whitespace
    collapsed. *)
Theorem no_question_mark_no_removal (s : list N) (m : bool) :
  63 ∉ s → (m = true → 191 ∉ s) →
  ∃ d, clean s m = Ok (collapse_spaces (substituted s m), PyDict d)
       ∧ d !! "utm_removed_count" = Some 0%Z.
Proof.
  intros H63 H191. exists (final_summary s m ∅).
  assert (utm_free (text_before_utm s m) = true) as Hfree.
  { apply no_question_mark_utm_free. rewrite text_before_utm_substituted.
    rewrite <- Forall_forall. apply collapse_spaces_Forall; [done|].
    by apply substituted_no_question_mark. }
  rewrite clean_eq, summary_utm_count, final_text_eq.
  rewrite utm_free_removed_id, utm_free_count_zero by done.
  split; [|done]. do 2 f_equal. rewrite text_before_utm_substituted.
  apply collapse_spaces_id, collapse_spaces_normal.
Qed.

Lemma no_question_mark_no_removal_witness :
  (63 ∉ lit "a  b") ∧ (true = true → 191 ∉ lit "a  b")
  ∧ ∃ d, clean (lit "a  b") true
         = Ok (collapse_spaces (substituted (lit "a  b") true), PyDict d)
         ∧ d !! "utm_removed_count" = Some 0%Z.
Proof.
  assert (63 ∉ lit "a  b") as H1 by (cbn; absent).
  assert (true = true → 191 ∉ lit "a  b") as H2 by (intros _; cbn; absent).
  split; [done|]. split; [done|]. by apply no_question_mark_no_removal.
Defined.

(** * Behaviour of the command-line layer *)

(** X9: in standard-input mode, reading stops at the first blank line: whatever
    follows a line made of whitespace only has no effect on what is
    printed. *)
Theorem stdin_input_ends_at_blank_line
    (cs : colors) (l sh : bool) (w : world) (pre blank r1 r2 : list N) :
  Forall (λ c, isspace c = true) blank →
  ∃ w1 w2,
    process_stdin cs l sh (set_stdin (pre ++ [10] ++ blank ++ [10] ++ r1) w)
    = Ok w1
    ∧ process_stdin cs l sh (set_stdin (pre ++ [10] ++ blank ++ [10] ++ r2) w)
      = Ok w2
    ∧ stdout w1 = stdout w2.
Proof.
  intros Hb. eexists _, _. rewrite !process_stdin_eq.
  split; [done|]. split; [done|].
  cbn [stdin set_stdin COLOR_AVAILABLE]. cbn zeta.
  rewrite !(stdin_raw_ends_at_blank pre blank) by done.
  by destruct (negb (truthy _)).
Qed.

Lemma stdin_input_ends_at_blank_line_witness :
  Forall (λ c, isspace c = true) [32; 9]
  ∧ ∃ w1 w2,
      process_stdin fallback_colors true true
        (set_stdin (lit "one  two" ++ [10] ++ [32; 9] ++ [10] ++ lit "three")
           (initial_world false false [] []))
      = Ok w1
      ∧ process_stdin fallback_colors true true
          (set_stdin (lit "one  two" ++ [10] ++ [32; 9] ++ [10] ++ [])
             (initial_world false false [] []))
        = Ok w2
      ∧ stdout w1 = stdout w2.
Proof.
  assert (Forall (λ c, isspace c = true) [32; 9]) as H by by repeat constructor.
  split; [done|]. by apply stdin_input_ends_at_blank_line.
Defined.

(** X10: when the first line read is blank, or the input is already at its end,
    standard-input mode prints its prompt and [No input received.] and
    nothing else; the clipboard is not touched. *)
Theorem process_stdin_without_input (cs : colors) (l sh : bool) (w : world) :
  strip (readline (stdin w)).1 = [] →
  ∃ w', process_stdin cs l sh w = Ok w'
        ∧ stdout w'
          = stdout w
            ++ [ printed cs (COLOR_AVAILABLE w)
                   (lit "Paste your text. Press Enter twice on an empty line (or Ctrl+D/Ctrl+Z) to end:")
                   (Fore_CYAN cs);
                 printed cs (COLOR_AVAILABLE w) (lit "No input received.")
                   (Fore_YELLOW cs) ]
        ∧ clipboard w' = clipboard w.
Proof.
  intros Hb. eexists. rewrite process_stdin_eq. split; [done|]. cbn zeta.
  rewrite stdin_raw_truthy, bool_decide_eq_true_2 by done. done.
Qed.

Lemma process_stdin_without_input_witness :
  strip (readline (stdin (initial_world false false (lit "kept")
                            ([32; 10] ++ lit "late")))).1 = []
  ∧ ∃ w', process_stdin fallback_colors false true
            (initial_world false false (lit "kept") ([32; 10] ++ lit "late"))
          = Ok w'
          ∧ stdout w'
            = [ lit "Paste your text. Press Enter twice on an empty line (or Ctrl+D/Ctrl+Z) to end:";
                lit "No input received." ]
          ∧ clipboard w' = lit "kept".
Proof.
  assert (strip (readline (stdin (initial_world false false (lit "kept")
                                    ([32; 10] ++ lit "late")))).1 = []) as H
    by by vm_compute.
  split; [done|].
  destruct (process_stdin_without_input fallback_colors false true _ H)
    as (w' & Hp & Ho & Hc).
  exists w'. by rewrite Ho, Hc.
Defined.

(** X11: when the first line read holds a non-whitespace character,
    standard-input mode prints, after its prompt and the header, the cleaned
    text of the lines read up to the first blank line: one line, with no
    line feed or carriage return in it however many lines were read; the
    summary report follows when it was asked for, and nothing else. *)
Theorem process_stdin_prints_one_line (cs : colors) (l sh : bool) (w : world) :
  strip (readline (stdin w)).1 ≠ [] →
  ∃ w' t d,
    process_stdin cs l sh w = Ok w'
    ∧ clean (stdin_raw (stdin w)) l = Ok (t, PyDict d)
    ∧ stdout w'
      = stdout w
        ++ [ printed cs (COLOR_AVAILABLE w)
               (lit "Paste your text. Press Enter twice on an empty line (or Ctrl+D/Ctrl+Z) to end:")
               (Fore_CYAN cs);
             printed cs (COLOR_AVAILABLE w)
               ([10] ++ lit "--- Cleaned Output ---" ++ [10]) (Fore_CYAN cs);
             t ]
        ++ (if sh
            then summary_report cs (COLOR_AVAILABLE w) d (stdin_raw (stdin w)) t
            else [])
    ∧ (10 ∉ t) ∧ (13 ∉ t).
Proof.
  intros Hb.
  exists (emit ([printed cs (COLOR_AVAILABLE w)
                   (lit "Paste your text. Press Enter twice on an empty line (or Ctrl+D/Ctrl+Z) to end:")
                   (Fore_CYAN cs);
                 printed cs (COLOR_AVAILABLE w)
                   ([10] ++ lit "--- Cleaned Output ---" ++ [10]) (Fore_CYAN cs);
                 final_text (stdin_raw (stdin w)) l]
                ++ if sh
                   then summary_report cs (COLOR_AVAILABLE w)
                          (final_summary (stdin_raw (stdin w)) l ∅)
                          (stdin_raw (stdin w))
                          (final_text (stdin_raw (stdin w)) l)
                   else [])
               (set_stdin (read_loop (S (length (stdin w))) (stdin w) []).2 w)),
         (final_text (stdin_raw (stdin w)) l),
         (final_summary (stdin_raw (stdin w)) l ∅).
  split.
  { rewrite process_stdin_eq. cbn zeta.
    by rewrite stdin_raw_truthy, bool_decide_eq_false_2 by done. }
  split; [apply clean_eq|]. split; [done|].
  destruct (final_text_normal (stdin_raw (stdin w)) l) as (Ht & _ & _).
  rewrite Forall_forall in Ht.
  split; intros Hin; by specialize (Ht _ Hin eq_refl).
Qed.

Lemma process_stdin_prints_one_line_witness :
  strip (readline (stdin (initial_world false false []
                            (lit "one" ++ [10] ++ lit "two" ++ [10; 10]
                             ++ lit "late")))).1 ≠ []
  ∧ ∃ w', process_stdin fallback_colors false false
            (initial_world false false []
               (lit "one" ++ [10] ++ lit "two" ++ [10; 10] ++ lit "late"))
          = Ok w'
          ∧ stdout w'
            = [ lit "Paste your text. Press Enter twice on an empty line (or Ctrl+D/Ctrl+Z) to end:";
                [10] ++ lit "--- Cleaned Output ---" ++ [10];
                lit "one two" ].
Proof.
  assert (strip (readline (stdin (initial_world false false []
                                    (lit "one" ++ [10] ++ lit "two" ++ [10; 10]
                                     ++ lit "late")))).1 ≠ []) as H
    by by vm_compute.
  split; [done|].
  destruct (process_stdin_prints_one_line fallback_colors false false _ H)
    as (w' & t & d & Hp & Hc & Ho & _).
  exists w'. split; [done|]. rewrite Ho.
  rewrite clean_eq in Hc. injection Hc as <- _. by vm_compute.
Defined.

(** X12: with a [paste] that returns what the clipboard holds and a [copy]
    that replaces it, clipboard mode returns and leaves in the clipboard the
    cleaned text of what was there (an empty clipboard stays empty), or
    leaves it untouched when [PYPERCLIP_AVAILABLE] is off; it reads nothing
    from standard input and changes neither flag. *)
Theorem process_clipboard_result (pp : pyperclip_module) (cs : colors)
    (l sh : bool) (w : world) :
  paste pp w = Returned (clipboard w) →
  (∀ text, copy pp text w = Returned (pyperclip_copy text w)) →
  ∃ w' t d,
    process_clipboard pp cs l sh w = Returned w'
    ∧ clean (clipboard w) l = Ok (t, PyDict d)
    ∧ clipboard w' = (if PYPERCLIP_AVAILABLE w then t else clipboard w)
    ∧ stdin w' = stdin w
    ∧ COLOR_AVAILABLE w' = COLOR_AVAILABLE w
    ∧ PYPERCLIP_AVAILABLE w' = PYPERCLIP_AVAILABLE w.
Proof.
  intros Hpaste Hcopy.
  destruct (process_clipboard_working pp cs l sh w Hpaste Hcopy)
    as (w' & Hrun & Hrest).
  exists w', (final_text (clipboard w) l), (final_summary (clipboard w) l ∅).
  split; [done|]. split; [apply clean_eq|done].
Qed.

Lemma process_clipboard_result_witness :
  paste working_pyperclip (initial_world false true (lit " a  b ") [])
  = Returned (clipboard (initial_world false true (lit " a  b ") []))
  ∧ (∀ text,
       copy working_pyperclip text (initial_world false true (lit " a  b ") [])
       = Returned (pyperclip_copy text
                     (initial_world false true (lit " a  b ") [])))
  ∧ ∃ w', process_clipboard working_pyperclip fallback_colors false false
            (initial_world false true (lit " a  b ") [])
          = Returned w'
          ∧ clipboard w' = lit "a b".
Proof.
  split; [done|]. split; [done|].
  destruct (process_clipboard_result working_pyperclip fallback_colors
              false false (initial_world false true (lit " a  b ") []))
    as (w' & t & d & Hp & Hc & Hclip & _); [done..|].
  exists w'. split; [done|]. rewrite Hclip.
  rewrite clean_eq in Hc. injection Hc as <- _. by vm_compute.
Defined.

(** X13: with a [paste] that returns what the clipboard holds and a [copy]
    that replaces it, running clipboard mode a second time with the same
    language mode leaves the clipboard as the first run left it. *)
Theorem process_clipboard_twice (pp : pyperclip_module) (cs : colors)
    (l sh sh' : bool) (w : world) :
  (∀ w0, paste pp w0 = Returned (clipboard w0)) →
  (∀ text w0, copy pp text w0 = Returned (pyperclip_copy text w0)) →
  ∃ w1 w2,
    process_clipboard pp cs l sh w = Returned w1
    ∧ process_clipboard pp cs l sh' w1 = Returned w2
    ∧ clipboard w2 = clipboard w1.
Proof.
  intros Hpaste Hcopy.
  destruct (process_clipboard_working pp cs l sh w (Hpaste w)
              (λ text, Hcopy text w)) as (w1 & H1 & Hc1 & _ & _ & Hp1).
  destruct (process_clipboard_working pp cs l sh' w1 (Hpaste w1)
              (λ text, Hcopy text w1)) as (w2 & H2 & Hc2 & _).
  exists w1, w2. split; [done|]. split; [done|].
  rewrite Hc2, Hp1. destruct (PYPERCLIP_AVAILABLE w); [|done].
  rewrite Hc1. apply final_text_idem.
Qed.

Lemma process_clipboard_twice_witness :
  (∀ w0, paste working_pyperclip w0 = Returned (clipboard w0))
  ∧ (∀ text w0,
       copy working_pyperclip text w0 = Returned (pyperclip_copy text w0))
  ∧ ∃ w1 w2,
      process_clipboard working_pyperclip fallback_colors true true
        (initial_world false true ([8220] ++ lit "a  b" ++ [8230]) [])
      = Returned w1
      ∧ process_clipboard working_pyperclip fallback_colors true false w1
        = Returned w2
      ∧ clipboard w2 = clipboard w1.
Proof.
  split; [done|]. split; [done|].
  by apply process_clipboard_twice.
Defined.


(** Imported, but with no clipboard mechanism: the exception leaves the
    function and nothing is printed. *)
Example process_clipboard_without_mechanism :
  process_clipboard pyperclip_without_mechanism fallback_colors false true
    (initial_world false true (lit "text") [])
  = Raised PyperclipException.
Proof. done. Qed.

(** X14: the report [show_summary_info] prints for the summary of a cleaning
    shows, in this order, the two fancy-quote counts of the input, the number
    of UTM fragments removed, the number of punctuation characters replaced
    (this line in language mode only), the length of the input and the
    length of the cleaned text. *)
Theorem summary_report_after_clean
    (cs : colors) (raw : list N) (l : bool) (w : world) :
  ∃ t d,
    clean raw l = Ok (t, PyDict d)
    ∧ stdout (show_summary_info cs d raw t w)
      = stdout w
        ++ [ printed cs (COLOR_AVAILABLE w) ([10] ++ lit "--- Summary ---")
               (Fore_CYAN cs);
             printed cs (COLOR_AVAILABLE w)
               (lit "Fancy double quotes replaced: "
                ++ str_of_int (Z.of_nat (count_occ N.eq_dec raw 8220%N
                                         + count_occ N.eq_dec raw 8221%N)))
               (Fore_YELLOW cs);
             printed cs (COLOR_AVAILABLE w)
               (lit "Fancy single quotes replaced: "
                ++ str_of_int (Z.of_nat (count_occ N.eq_dec raw 8216%N
                                         + count_occ N.eq_dec raw 8217%N)))
               (Fore_YELLOW cs);
             printed cs (COLOR_AVAILABLE w)
               (lit "UTM tracking parts removed: "
                ++ str_of_int (Z.of_nat (utm_count false (text_before_utm raw l))))
               (Fore_YELLOW cs) ]
        ++ (if l
            then [ printed cs (COLOR_AVAILABLE w)
                     (lit "Language punctuation replacements: "
                      ++ str_of_int
                           (Z.of_nat (count_if (is_key LANG_PUNCT_MAP) raw)))
                     (Fore_YELLOW cs) ]
            else [])
        ++ [ printed cs (COLOR_AVAILABLE w)
               (lit "Original length: " ++ str_of_int (Z.of_nat (length raw)))
               (Fore_CYAN cs);
             printed cs (COLOR_AVAILABLE w)
               (lit "Cleaned length: " ++ str_of_int (Z.of_nat (length t)))
               (Fore_CYAN cs) ].
Proof.
  exists (final_text raw l), (final_summary raw l ∅).
  split; [apply clean_eq|].
  rewrite show_summary_info_emit. unfold summary_report, dict_get.
  rewrite summary_fancy_double, summary_fancy_single, summary_utm_count,
    summary_lang_punct.
  cbn [stdout emit default]. by destruct l.
Qed.
